(** * Newyear: gesture classifier and firework particle engine

    A shallow embedding of [gesture.service.ts] (the hand-gesture
    classifier) and [visual-engine.service.ts] (the particle engine and
    the mapping from gestures to actions), with the properties of the
    design document proved or refuted against it.

    Conventions of the embedding.
    - A JavaScript number is an exact rational ([Q]).  Rounding of IEEE
      doubles and of [Float32Array] stores, and the values NaN and
      Infinity, are outside the model.  Values written into the engine
      state are kept in lowest terms ([Qred]), which changes the
      representation of a rational and not its value.
    - Timestamps ([Date.now()]) are integers ([Z], milliseconds).
    - [Math.random()] is the [k]-th element of an arbitrary sequence,
      read through a cursor kept in the engine state; every draw is a
      multiple of 2^-53 in [0, 1).
    - What the browser and three.js supply ([Math.sqrt], [Math.sin],
      [Math.cos], the canvas text rasteriser, [Color.setHex], the camera
      unprojection) is a parameter of the development. *)

From Stdlib Require Import ZArith QArith Qround Qminmax Lqa String Ascii List Lia.
From stdpp Require Import base option list gmap strings.

Local Open Scope Q_scope.

(** ** Comparisons on numbers, as booleans *)

Module Num.

(** [a < b] of the source, decided. *)
Definition Qltb (a b : Q) : bool := negb (Qle_bool b a).

(** [a >= b] of the source, decided. *)
Definition Qgeb (a b : Q) : bool := Qle_bool b a.

End Num.

(** ** The gesture classifier ([gesture.service.ts]) *)

Module Gesture.

Import Num.

Inductive GestureType : Type :=
| IDLE | PINCH | OPEN_PALM | V_SIGN | OK_SIGN | FIST.

(** One of the 21 points of a detected hand. *)
Record Landmark : Type := { x : Q; y : Q; z : Q }.

(** [HandState]; [hx], [hy], [hz] are its fields [x], [y], [z]. *)
Record HandState : Type := {
  gesture : GestureType;
  hx : Q;
  hy : Q;
  hz : Q;
  isPresent : bool
}.

Section Classifier.

(** [Math.sqrt]. *)
Variable Msqrt : Q -> Q.

Definition getDistance (p1 p2 : Landmark) : Q :=
  Msqrt ((x p1 - x p2) ^ 2 + (y p1 - y p2) ^ 2 + (z p1 - z p2) ^ 2).

(** Reading a missing landmark yields [undefined], and reading a
    coordinate of [undefined] throws: [None]. *)
Definition isFingerExtended (landmarks : list Landmark) (tipIdx : nat)
  : option bool :=
  tip ← landmarks !! tipIdx;
  mcp ← landmarks !! (tipIdx - 3)%nat;
  wrist ← landmarks !! 0%nat;
  Some (Qltb (getDistance wrist mcp * 1.3) (getDistance wrist tip)).

Definition processHand (landmarks : list Landmark) : option HandState :=
  thumbTip ← landmarks !! 4%nat;
  indexTip ← landmarks !! 8%nat;
  let pinchDist := getDistance thumbTip indexTip in
  isIndexExt ← isFingerExtended landmarks 8;
  isMiddleExt ← isFingerExtended landmarks 12;
  isRingExt ← isFingerExtended landmarks 16;
  isPinkyExt ← isFingerExtended landmarks 20;
  let gesture :=
    if negb isIndexExt && negb isMiddleExt && negb isRingExt
       && negb isPinkyExt then FIST
    else if Qltb pinchDist 0.05 then
      (if isMiddleExt && isRingExt && isPinkyExt then OK_SIGN else PINCH)
    else if isIndexExt && isMiddleExt && negb isPinkyExt then V_SIGN
    else if isIndexExt && isMiddleExt && isRingExt && isPinkyExt
      then OPEN_PALM
    else IDLE in
  Some {| gesture := gesture;
          hx := 1 - x indexTip;
          hy := y indexTip;
          hz := z indexTip;
          isPresent := true |}.

(** The hand state published when no hand is in the frame. *)
Definition noHand : HandState :=
  {| gesture := IDLE; hx := 0.5; hy := 0.5; hz := 0; isPresent := false |}.

(** [onResults], without the skeleton overlay: the new value of the
    [handState] signal for one detection result. *)
Definition onResults (multiHandLandmarks : option (list (list Landmark)))
  : option HandState :=
  match multiHandLandmarks with
  | Some (landmarks :: _) => processHand landmarks
  | _ => Some noHand
  end.

End Classifier.

End Gesture.

(** ** The particle engine ([visual-engine.service.ts]) *)

Module Engine.

Import Num.
Export Gesture(GestureType, IDLE, PINCH, OPEN_PALM, V_SIGN, OK_SIGN, FIST).

(** *** Data *)

(** [THREE.Vector3]. *)
Record Vector3 : Type := { vx : Q; vy : Q; vz : Q }.

Record Palette : Type := { name : string; hexes : list Z }.

(** [PALETTES]; [hexes] is the field [colors] of an entry. *)
Definition PALETTES : list Palette :=
  [ {| name := "赤 (Red)";
       hexes := [0xFF0000; 0xFF4D4D; 0xFF9999; 0xFFFFFF; 0xDC143C]%Z |};
    {| name := "橙 (Orange)";
       hexes := [0xFF7F00; 0xFFA500; 0xFFD700; 0xFFFFFF; 0xFF4500]%Z |};
    {| name := "黄 (Yellow)";
       hexes := [0xFFFF00; 0xFFFFE0; 0xFFD700; 0xFFFFFF; 0xDAA520]%Z |};
    {| name := "绿 (Green)";
       hexes := [0x00FF00; 0x32CD32; 0x90EE90; 0xFFFFFF; 0x006400]%Z |};
    {| name := "青 (Cyan)";
       hexes := [0x00FFFF; 0x40E0D0; 0xE0FFFF; 0xFFFFFF; 0x008B8B]%Z |};
    {| name := "蓝 (Blue)";
       hexes := [0x0000FF; 0x1E90FF; 0x87CEFA; 0xFFFFFF; 0x000080]%Z |};
    {| name := "紫 (Purple)";
       hexes := [0x8B00FF; 0x9370DB; 0xE6E6FA; 0xFFFFFF; 0x4B0082]%Z |} ].

Inductive SystemState : Type := ROCKET | EXPLODING | WEAVING | FADING.

(** [ParticleSystem].  The mesh is represented by what the engine
    reads and writes of it: the material's [size] (here [pointSize])
    and [opacity], and the two attribute arrays.
    [spawnRocketFirework] hands the very array [currentPos] to the
    position attribute and the very array [colors] to the color
    attribute, so [currentPositions] is also
    [mesh.geometry.attributes.position.array] and [colors] is also
    [mesh.geometry.attributes.color.array]: one field each.  [targetY]
    and [targetX] are the two properties attached to the object after
    it is pushed. *)
Record ParticleSystem : Type := {
  originalPositions : list Q;
  currentPositions : list Q;
  velocities : list Q;
  colors : list Q;
  pointSize : Q;
  opacity : Q;
  state : SystemState;
  timer : Q;
  rocketPos : Vector3;
  rocketVelocity : Vector3;
  targetY : Q;
  targetX : Q
}.

Inductive AppMode : Type := COUNTDOWN | SHOW.

(** The hand cursor: position, [visible], and the material's color. *)
Record Cursor : Type := {
  cursorPosition : Vector3;
  cursorVisible : bool;
  cursorColor : Z
}.

(** What [init] creates: the camera (its [position.z]), the nebula
    (its [rotation.z]), the cursor, and the renderer (the number of
    frames handed to it so far). *)
Record Scene : Type := {
  cameraZ : Q;
  nebulaRotation : Q;
  cursor : Cursor;
  rendered : nat
}.

(** A run of [runTextLoop] suspended at one of its two [await]s:
    in the pause gate before a spawn, or in the display wait after
    it, with the values of its locals. *)
Inductive TextLoop : Type :=
| AwaitResume (index : nat)
| AwaitDisplay (index : nat) (elapsed : Z).

(** The service instance, with the part of the host it relies on:
    the number of [Math.random] draws made so far, the pending
    [setTimeout] callbacks of [triggerFinale] (each with its delay),
    and the suspended runs of [runTextLoop]. *)
Record EngineState : Type := {
  scene : option Scene;
  textPointsCache : gmap string (list Vector3);
  systems : list ParticleSystem;
  mouseX : Q;
  mouseY : Q;
  mode : AppMode;
  currentPaletteIndex : nat;
  isHandDetected : bool;
  handGesture : GestureType;
  isPaused : bool;
  lastTriggerTime : Z;
  currentAction : string;
  randomDraws : nat;
  finaleTimeouts : list Z;
  textLoops : list TextLoop
}.

(** [getImageData]: the width of the canvas and its RGBA bytes. *)
Record ImageData : Type := { width : nat; data : nat -> Z }.

(** What the browser and three.js supply. *)
Record Platform : Type := {
  (** [Math.sin], [Math.cos], [Math.PI] *)
  Msin : Q -> Q;
  Mcos : Q -> Q;
  MPI : Q;
  (** the sequence behind [Math.random] *)
  randomSource : nat -> Z;
  (** the text drawn on a fresh canvas; [None] when the canvas has no
      2D context *)
  renderText : string -> option ImageData;
  (** the [r], [g], [b] that [Color.setHex] gives a hex color *)
  setHex : Z -> Vector3;
  (** the point of the plane [z = 0] under the pointer, from
      [mouse.x], [mouse.y] and the camera's [position.z] *)
  interactPos : Q -> Q -> Q -> Vector3
}.

(** *** Computations that draw random numbers *)

(** A computation reads the sequence from a cursor and returns the
    cursor advanced by the number of draws it made. *)
Definition Rand (A : Type) : Type := nat -> A * nat.

Definition ret {A : Type} (a : A) : Rand A := fun k => (a, k).

Definition bind {A B : Type} (m : Rand A) (f : A -> Rand B) : Rand B :=
  fun k => let (a, k') := m k in f a k'.

#[export] Instance rand_ret : MRet Rand := @ret.
#[export] Instance rand_bind : MBind Rand := fun A B f m => bind m f.

(** [for (let j = from; j < from + n; j++) body] *)
Fixpoint forLoop {S : Type} (n from : nat) (body : nat -> S -> Rand S)
  (s : S) : Rand S :=
  match n with
  | O => ret s
  | Datatypes.S n' => s' ← body from s; forLoop n' (Datatypes.S from) body s'
  end.

(** [a[i]] on a typed array; a read out of range has no rational
    value and is given 0. *)
Definition get (a : list Q) (i : nat) : Q := default 0 (a !! i).

(** The number of [j] with [j < len / 3]. *)
Definition thirds (len : nat) : nat := ((len + 2) / 3)%nat.

(** [text.length]: UTF-16 code units of a string held as UTF-8. *)
Fixpoint jsLength (s : string) : nat :=
  match s with
  | EmptyString => 0%nat
  | String c r =>
      let b := nat_of_ascii c in
      ((if b <? 128 then 1 else if b <? 192 then 0
        else if b <? 240 then 1 else 2) + jsLength r)%nat
  end.

(** Whether a call threw.  The engine catches nothing, so an
    exception reaches whoever called the entry point. *)
Inductive Outcome : Type := Returned | Threw.

Section WithPlatform.

Variable P : Platform.

(** [Math.random()]: the next element of the sequence, as a
    multiple of 2^-53 in [0, 1). *)
Definition random : Rand Q :=
  fun k => (Qred (Qmake (randomSource P k mod 2 ^ 53) (2 ^ 53)), S k).

(** *** Shape rasteriser *)

(** The heart curve, 3000 samples. *)
Definition heartPoints : list Vector3 :=
  let count := 3000%nat in
  map (fun i : nat =>
         let t := inject_Z (Z.of_nat i) / inject_Z (Z.of_nat count)
                  * MPI P * 2 in
         let x := 16 * Msin P t ^ 3 in
         let y := 13 * Mcos P t - 5 * Mcos P (2 * t)
                  - 2 * Mcos P (3 * t) - Mcos P (4 * t) in
         {| vx := Qred (x * 1.2); vy := Qred (y * 1.2); vz := 0 |})
      (seq 0 count).

(** The scan of the rendered text: one point per pixel whose alpha
    exceeds 128, row by row; [fontSize] is 100, so the canvas is
    150 pixels high. *)
Definition scanPixel (img : ImageData) (scale : Q) (y x : nat)
  (points : list Vector3) : Rand (list Vector3) :=
  let w := inject_Z (Z.of_nat (width img)) in
  let h := 100 * 1.5 in
  let index := ((y * width img + x) * 4)%nat in
  let alpha := data img (index + 3)%nat in
  if (128 <? alpha)%Z then
    let posX := (inject_Z (Z.of_nat x) - w / 2) * scale in
    let posY := - (inject_Z (Z.of_nat y) - h / 2) * scale in
    r ← random;
    mret (points ++ [ {| vx := Qred posX; vy := Qred posY;
                         vz := Qred ((r - 0.5) * 1.0) |} ])
  else mret points.

Definition scanImage (img : ImageData) (scale : Q)
  : Rand (list Vector3) :=
  forLoop 150 0
    (fun y points => forLoop (width img) 0 (scanPixel img scale y) points)
    [].

(** A [shapeType] that is absent or empty is falsy. *)
Definition cacheKeyOf (text : string) (shapeType : option string)
  : string :=
  match shapeType with
  | Some t => if String.eqb t EmptyString then text else t
  | None => text
  end.

(** [getPointsFromTextCanvas]: the points returned and the cache
    afterwards. *)
Definition getPointsFromTextCanvas
  (cache : gmap string (list Vector3))
  (text : string) (scale : Q) (shapeType : option string)
  : Rand (list Vector3 * gmap string (list Vector3)) :=
  let cacheKey := cacheKeyOf text shapeType in
  match cache !! cacheKey with
  | Some cached => mret (cached, cache)
  | None =>
      if decide (shapeType = Some "HEART") then
        let targets := heartPoints in
        mret (targets, <[cacheKey := targets]> cache)
      else
        match renderText P text with
        | None => mret ([], cache)
        | Some img =>
            points ← scanImage img scale;
            mret (points, <[cacheKey := points]> cache)
        end
  end.

(** *** Spawning *)

(** The four buffers filled by the loop of [spawnRocketFirework]. *)
Record Buffers : Type := {
  b_currentPos : list Q;
  b_originalPos : list Q;
  b_velocities : list Q;
  b_colors : list Q
}.

(** One round of that loop, for particle [i]. *)
Definition initParticle (targets : list Vector3) (palette : list Z)
  (startX startY startZ : Q) (i : nat) (b : Buffers) : Rand Buffers :=
  let currentPos :=
    <[(i*3+2)%nat := startZ]>
      (<[(i*3+1)%nat := startY]> (<[(i*3)%nat := startX]> (b_currentPos b))) in
  let target := default {| vx := 0; vy := 0; vz := 0 |} (targets !! i) in
  let originalPos :=
    <[(i*3+2)%nat := vz target]>
      (<[(i*3+1)%nat := vy target]>
         (<[(i*3)%nat := vx target]> (b_originalPos b))) in
  r1 ← random;
  let theta := r1 * MPI P * 2 in
  r2 ← random;
  let phi := r2 * MPI P in
  r3 ← random;
  let speed := 0.3 + r3 * 1.2 in
  let velocities :=
    <[(i*3+2)%nat := Qred (speed * Mcos P phi)]>
      (<[(i*3+1)%nat := Qred (speed * Msin P phi * Msin P theta)]>
         (<[(i*3)%nat := Qred (speed * Msin P phi * Mcos P theta)]>
            (b_velocities b))) in
  r4 ← random;
  let baseColorHex :=
    default 0%Z
      (palette !! Z.to_nat (Qfloor (r4 * inject_Z (Z.of_nat (length palette))))) in
  let color := setHex P baseColorHex in
  let colors :=
    <[(i*3+2)%nat := vz color]>
      (<[(i*3+1)%nat := vy color]> (<[(i*3)%nat := vx color]> (b_colors b))) in
  mret {| b_currentPos := currentPos; b_originalPos := originalPos;
          b_velocities := velocities; b_colors := colors |}.

(** [new Float32Array(n)] *)
Definition Float32Array (n : nat) : list Q := replicate n 0.

(** [PALETTES[index].colors]; the index is one of 0..6 throughout,
    and an index outside the table is given the empty palette. *)
Definition paletteColors (index : nat) : list Z :=
  default [] (hexes <$> PALETTES !! index).

(** The engine with a new cache and a new count of random draws. *)
Definition setCacheAndDraws (e : EngineState)
  (cache : gmap string (list Vector3)) (draws : nat) : EngineState :=
  {| scene := scene e; textPointsCache := cache; systems := systems e;
     mouseX := mouseX e; mouseY := mouseY e; mode := mode e;
     currentPaletteIndex := currentPaletteIndex e;
     isHandDetected := isHandDetected e; handGesture := handGesture e;
     isPaused := isPaused e; lastTriggerTime := lastTriggerTime e;
     currentAction := currentAction e; randomDraws := draws;
     finaleTimeouts := finaleTimeouts e; textLoops := textLoops e |}.

Definition pushSystem (e : EngineState) (sys : ParticleSystem)
  : EngineState :=
  {| scene := scene e; textPointsCache := textPointsCache e;
     systems := systems e ++ [sys];
     mouseX := mouseX e; mouseY := mouseY e; mode := mode e;
     currentPaletteIndex := currentPaletteIndex e;
     isHandDetected := isHandDetected e; handGesture := handGesture e;
     isPaused := isPaused e; lastTriggerTime := lastTriggerTime e;
     currentAction := currentAction e; randomDraws := randomDraws e;
     finaleTimeouts := finaleTimeouts e; textLoops := textLoops e |}.

(** The system that [spawnRocketFirework] pushes, once its rocket
    velocity and target have been set. *)
Definition newSystem (b : Buffers) (targetX targetY rocketSpeed : Q)
  : ParticleSystem :=
  {| originalPositions := b_originalPos b;
     currentPositions := b_currentPos b;
     velocities := b_velocities b;
     colors := b_colors b;
     pointSize := 0.25;
     opacity := 1;
     state := ROCKET;
     timer := 0;
     rocketPos := {| vx := targetX; vy := -60; vz := 0 |};
     rocketVelocity := {| vx := 0; vy := rocketSpeed; vz := 0 |};
     targetY := targetY;
     targetX := targetX |}.

(** [spawnRocketFirework].  Without a scene [this.scene.add] throws,
    after the buffers have been filled and before the push. *)
Definition spawnRocketFirework (e : EngineState) (text : string)
  (scale targetX targetY : Q) (shapeType : option string)
  : EngineState * Outcome :=
  let '(targets, cache, k) :=
    getPointsFromTextCanvas (textPointsCache e) text scale shapeType
      (randomDraws e) in
  let count := length targets in
  if (count =? 0)%nat then (setCacheAndDraws e cache k, Returned)
  else
    let palette := paletteColors (currentPaletteIndex e) in
    let '(b, k) :=
      forLoop count 0 (initParticle targets palette targetX (-60) 0)
        {| b_currentPos := Float32Array (count * 3);
           b_originalPos := Float32Array (count * 3);
           b_velocities := Float32Array (count * 3);
           b_colors := Float32Array (count * 3) |} k in
    match scene e with
    | None => (setCacheAndDraws e cache k, Threw)
    | Some _ =>
        let '(r, k) := random k in
        (pushSystem (setCacheAndDraws e cache k)
           (newSystem b targetX targetY (Qred (0.8 + r * 0.4))),
         Returned)
    end.

(** *** One tick of one system *)

Definition dt : Q := 0.016.

Definition addVector (a b : Vector3) : Vector3 :=
  {| vx := Qred (vx a + vx b); vy := Qred (vy a + vy b);
     vz := Qred (vz a + vz b) |}.

(** ROCKET: the trail of particle [j].  [colors] is both the array
    written and [sys.colors], the array read. *)
Definition rocketTrail (rocketPos : Vector3) (j : nat)
  (pc : list Q * list Q) : Rand (list Q * list Q) :=
  let '(positions, colors) := pc in
  let trailLength := 8.0 in
  lag ← random;
  let lagCurve := lag ^ 6 in
  let spread := 0.05 + lagCurve * 0.4 in
  r1 ← random;
  let positions :=
    <[(j*3)%nat := Qred (vx rocketPos + (r1 - 0.5) * spread)]> positions in
  let positions :=
    <[(j*3+1)%nat := Qred (vy rocketPos - lagCurve * trailLength)]>
      positions in
  r2 ← random;
  let positions :=
    <[(j*3+2)%nat := Qred (vz rocketPos + (r2 - 0.5) * spread)]>
      positions in
  if Qltb lagCurve 0.02 then
    mret (positions,
          <[(j*3+2)%nat := 1.0]>
            (<[(j*3+1)%nat := 1.0]> (<[(j*3)%nat := 1.0]> colors)))
  else
    let fade := 1.0 - lagCurve in
    let dimFactor := 0.6 * fade in
    let colors :=
      <[(j*3)%nat := Qred (get colors (j*3) * dimFactor)]> colors in
    let colors :=
      <[(j*3+1)%nat := Qred (get colors (j*3+1) * dimFactor)]> colors in
    let colors :=
      <[(j*3+2)%nat := Qred (get colors (j*3+2) * dimFactor)]> colors in
    mret (positions, colors).

(** [for (j < colors.length) colors[j] = sys.colors[j]], on the one
    array that both names denote. *)
Definition restoreColors (colors : list Q) : Rand (list Q) :=
  forLoop (length colors) 0
    (fun j colors => mret (<[j := get colors j]> colors)) colors.

Definition tickRocket (sys : ParticleSystem)
  : Rand (option ParticleSystem) :=
  let rocketPos := addVector (rocketPos sys) (rocketVelocity sys) in
  '(positions, colors) ←
    forLoop (thirds (length (currentPositions sys))) 0
      (rocketTrail rocketPos) (currentPositions sys, colors sys);
  if Qgeb (vy rocketPos) (targetY sys) then
    colors ← restoreColors colors;
    mret (Some {| originalPositions := originalPositions sys;
                  currentPositions := positions;
                  velocities := velocities sys;
                  colors := colors;
                  pointSize := 0.18;
                  opacity := opacity sys;
                  state := EXPLODING;
                  timer := 0;
                  rocketPos := rocketPos;
                  rocketVelocity := rocketVelocity sys;
                  targetY := targetY sys;
                  targetX := targetX sys |})
  else
    mret (Some {| originalPositions := originalPositions sys;
                  currentPositions := positions;
                  velocities := velocities sys;
                  colors := colors;
                  pointSize := pointSize sys;
                  opacity := opacity sys;
                  state := ROCKET;
                  timer := timer sys;
                  rocketPos := rocketPos;
                  rocketVelocity := rocketVelocity sys;
                  targetY := targetY sys;
                  targetX := targetX sys |}).

(** EXPLODING: particle [j] moves by its velocity, which decays. *)
Definition explodeParticle (j : nat) (pv : list Q * list Q)
  : Rand (list Q * list Q) :=
  let '(positions, velocities) := pv in
  let positions :=
    <[(j*3)%nat := Qred (get positions (j*3) + get velocities (j*3))]>
      positions in
  let positions :=
    <[(j*3+1)%nat :=
        Qred (get positions (j*3+1) + get velocities (j*3+1))]>
      positions in
  let positions :=
    <[(j*3+2)%nat :=
        Qred (get positions (j*3+2) + get velocities (j*3+2))]>
      positions in
  let velocities :=
    <[(j*3)%nat := Qred (get velocities (j*3) * 0.9)]> velocities in
  let velocities :=
    <[(j*3+1)%nat := Qred (get velocities (j*3+1) * 0.9)]> velocities in
  let velocities :=
    <[(j*3+2)%nat := Qred (get velocities (j*3+2) * 0.9)]> velocities in
  mret (positions, velocities).

Definition tickExploding (sys : ParticleSystem)
  : Rand (option ParticleSystem) :=
  '(positions, velocities) ←
    forLoop (thirds (length (currentPositions sys))) 0
      explodeParticle (currentPositions sys, velocities sys);
  let weave := Qltb 0.6 (timer sys) in
  mret (Some {| originalPositions := originalPositions sys;
                currentPositions := positions;
                velocities := velocities;
                colors := colors sys;
                pointSize := pointSize sys;
                opacity := opacity sys;
                state := if weave then WEAVING else EXPLODING;
                timer := if weave then 0 else timer sys;
                rocketPos := rocketPos sys;
                rocketVelocity := rocketVelocity sys;
                targetY := targetY sys;
                targetX := targetX sys |}).

(** WEAVING: particle [j] is pulled toward its target and jittered. *)
Definition weaveParticle (sys : ParticleSystem) (moveFactor spread : Q)
  (j : nat) (positions : list Q) : Rand (list Q) :=
  let px := get positions (j*3) in
  let py := get positions (j*3+1) in
  let pz := get positions (j*3+2) in
  let tx := get (originalPositions sys) (j*3) + targetX sys in
  let ty := get (originalPositions sys) (j*3+1) + targetY sys in
  let tz := get (originalPositions sys) (j*3+2) in
  let positions :=
    <[(j*3)%nat := Qred (get positions (j*3) + (tx - px) * moveFactor)]>
      positions in
  let positions :=
    <[(j*3+1)%nat :=
        Qred (get positions (j*3+1) + (ty - py) * moveFactor)]>
      positions in
  let positions :=
    <[(j*3+2)%nat :=
        Qred (get positions (j*3+2) + (tz - pz) * moveFactor)]>
      positions in
  r1 ← random;
  let positions :=
    <[(j*3)%nat := Qred (get positions (j*3) + (r1 - 0.5) * spread)]>
      positions in
  r2 ← random;
  let positions :=
    <[(j*3+1)%nat := Qred (get positions (j*3+1) + (r2 - 0.5) * spread)]>
      positions in
  r3 ← random;
  let positions :=
    <[(j*3+2)%nat := Qred (get positions (j*3+2) + (r3 - 0.5) * spread)]>
      positions in
  mret positions.

Definition tickWeaving (sys : ParticleSystem)
  : Rand (option ParticleSystem) :=
  let weaveDuration := 2.4 in
  let progress := Qmin (timer sys / weaveDuration) 1.0 in
  let moveFactor := 0.1 * (1.0 - progress ^ 2) in
  let spreadBase := 0.02 in
  let spread := spreadBase + progress * 0.1 in
  let opacity :=
    if Qltb 0.6 progress
    then Qred (1.0 - ((progress - 0.6) / 0.4) * 0.5)
    else 1.0 in
  positions ←
    forLoop (thirds (length (currentPositions sys))) 0
      (weaveParticle sys moveFactor spread) (currentPositions sys);
  mret (Some {| originalPositions := originalPositions sys;
                currentPositions := positions;
                velocities := velocities sys;
                colors := colors sys;
                pointSize := pointSize sys;
                opacity := opacity;
                state := if Qltb weaveDuration (timer sys)
                         then FADING else WEAVING;
                timer := timer sys;
                rocketPos := rocketPos sys;
                rocketVelocity := rocketVelocity sys;
                targetY := targetY sys;
                targetX := targetX sys |}).

(** FADING: particle [j] sinks and drifts sideways. *)
Definition fadeParticle (j : nat) (positions : list Q) : Rand (list Q) :=
  let positions :=
    <[(j*3+1)%nat := Qred (get positions (j*3+1) - 0.05)]> positions in
  r1 ← random;
  let positions :=
    <[(j*3)%nat := Qred (get positions (j*3) + (r1 - 0.5) * 0.15)]>
      positions in
  r2 ← random;
  let positions :=
    <[(j*3+2)%nat := Qred (get positions (j*3+2) + (r2 - 0.5) * 0.15)]>
      positions in
  mret positions.

(** [None]: the system was spliced out of [systems]. *)
Definition tickFading (sys : ParticleSystem)
  : Rand (option ParticleSystem) :=
  let opacity := Qred (opacity sys - 0.02) in
  positions ←
    forLoop (thirds (length (currentPositions sys))) 0
      fadeParticle (currentPositions sys);
  if Qle_bool opacity 0 then mret None
  else
    mret (Some {| originalPositions := originalPositions sys;
                  currentPositions := positions;
                  velocities := velocities sys;
                  colors := colors sys;
                  pointSize := pointSize sys;
                  opacity := opacity;
                  state := FADING;
                  timer := timer sys;
                  rocketPos := rocketPos sys;
                  rocketVelocity := rocketVelocity sys;
                  targetY := targetY sys;
                  targetX := targetX sys |}).

(** [sys.timer += dt] *)
Definition advanceTimer (sys : ParticleSystem) : ParticleSystem :=
  {| originalPositions := originalPositions sys;
     currentPositions := currentPositions sys;
     velocities := velocities sys;
     colors := colors sys;
     pointSize := pointSize sys;
     opacity := opacity sys;
     state := state sys;
     timer := Qred (timer sys + dt);
     rocketPos := rocketPos sys;
     rocketVelocity := rocketVelocity sys;
     targetY := targetY sys;
     targetX := targetX sys |}.

(** The body of the loop over [systems] in [animate], for one
    system.  Its [targetY || 0] and [targetX || 0] are [targetY] and
    [targetX], as both are numbers. *)
Definition tickSystem (sys : ParticleSystem)
  : Rand (option ParticleSystem) :=
  let sys := advanceTimer sys in
  match state sys with
  | ROCKET => tickRocket sys
  | EXPLODING => tickExploding sys
  | WEAVING => tickWeaving sys
  | FADING => tickFading sys
  end.

(** [for (let i = systems.length - 1; i >= 0; i--)]: the rounds for
    the indices below [i], highest first; a system that is done is
    spliced out at its index. *)
Fixpoint tickSystems (i : nat) (systems : list ParticleSystem)
  : Rand (list ParticleSystem) :=
  match i with
  | O => mret systems
  | S i' =>
      match systems !! i' with
      | None => tickSystems i' systems
      | Some sys =>
          r ← tickSystem sys;
          match r with
          | Some sys' => tickSystems i' (<[i' := sys']> systems)
          | None => tickSystems i' (delete i' systems)
          end
      end
  end.

(** *** Assignments to single members of the service *)

Definition setCurrentAction (e : EngineState) (label : string)
  : EngineState :=
  {| scene := scene e; textPointsCache := textPointsCache e;
     systems := systems e; mouseX := mouseX e; mouseY := mouseY e;
     mode := mode e; currentPaletteIndex := currentPaletteIndex e;
     isHandDetected := isHandDetected e; handGesture := handGesture e;
     isPaused := isPaused e; lastTriggerTime := lastTriggerTime e;
     currentAction := label; randomDraws := randomDraws e;
     finaleTimeouts := finaleTimeouts e; textLoops := textLoops e |}.

Definition setLastTriggerTime (e : EngineState) (now : Z) : EngineState :=
  {| scene := scene e; textPointsCache := textPointsCache e;
     systems := systems e; mouseX := mouseX e; mouseY := mouseY e;
     mode := mode e; currentPaletteIndex := currentPaletteIndex e;
     isHandDetected := isHandDetected e; handGesture := handGesture e;
     isPaused := isPaused e; lastTriggerTime := now;
     currentAction := currentAction e; randomDraws := randomDraws e;
     finaleTimeouts := finaleTimeouts e; textLoops := textLoops e |}.

(** The first four assignments of [updateHand]. *)
Definition setHand (e : EngineState) (x y : Q) (gesture : GestureType)
  (isPresent : bool) : EngineState :=
  {| scene := scene e; textPointsCache := textPointsCache e;
     systems := systems e;
     mouseX := Qred ((x * 2) - 1); mouseY := Qred (- (y * 2) + 1);
     mode := mode e; currentPaletteIndex := currentPaletteIndex e;
     isHandDetected := isPresent; handGesture := gesture;
     isPaused := isPaused e; lastTriggerTime := lastTriggerTime e;
     currentAction := currentAction e; randomDraws := randomDraws e;
     finaleTimeouts := finaleTimeouts e; textLoops := textLoops e |}.

Definition setFinaleTimeouts (e : EngineState) (pending : list Z)
  : EngineState :=
  {| scene := scene e; textPointsCache := textPointsCache e;
     systems := systems e; mouseX := mouseX e; mouseY := mouseY e;
     mode := mode e; currentPaletteIndex := currentPaletteIndex e;
     isHandDetected := isHandDetected e; handGesture := handGesture e;
     isPaused := isPaused e; lastTriggerTime := lastTriggerTime e;
     currentAction := currentAction e; randomDraws := randomDraws e;
     finaleTimeouts := pending; textLoops := textLoops e |}.

Definition setTextLoops (e : EngineState) (loops : list TextLoop)
  : EngineState :=
  {| scene := scene e; textPointsCache := textPointsCache e;
     systems := systems e; mouseX := mouseX e; mouseY := mouseY e;
     mode := mode e; currentPaletteIndex := currentPaletteIndex e;
     isHandDetected := isHandDetected e; handGesture := handGesture e;
     isPaused := isPaused e; lastTriggerTime := lastTriggerTime e;
     currentAction := currentAction e; randomDraws := randomDraws e;
     finaleTimeouts := finaleTimeouts e; textLoops := loops |}.

Definition setMode (e : EngineState) (m : AppMode) : EngineState :=
  {| scene := scene e; textPointsCache := textPointsCache e;
     systems := systems e; mouseX := mouseX e; mouseY := mouseY e;
     mode := m; currentPaletteIndex := currentPaletteIndex e;
     isHandDetected := isHandDetected e; handGesture := handGesture e;
     isPaused := isPaused e; lastTriggerTime := lastTriggerTime e;
     currentAction := currentAction e; randomDraws := randomDraws e;
     finaleTimeouts := finaleTimeouts e; textLoops := textLoops e |}.

(** [isPaused.set(b)] *)
Definition setPaused (e : EngineState) (b : bool) : EngineState :=
  {| scene := scene e; textPointsCache := textPointsCache e;
     systems := systems e; mouseX := mouseX e; mouseY := mouseY e;
     mode := mode e; currentPaletteIndex := currentPaletteIndex e;
     isHandDetected := isHandDetected e; handGesture := handGesture e;
     isPaused := b; lastTriggerTime := lastTriggerTime e;
     currentAction := currentAction e; randomDraws := randomDraws e;
     finaleTimeouts := finaleTimeouts e; textLoops := textLoops e |}.

Definition setScene (e : EngineState) (sc : Scene) : EngineState :=
  {| scene := Some sc; textPointsCache := textPointsCache e;
     systems := systems e; mouseX := mouseX e; mouseY := mouseY e;
     mode := mode e; currentPaletteIndex := currentPaletteIndex e;
     isHandDetected := isHandDetected e; handGesture := handGesture e;
     isPaused := isPaused e; lastTriggerTime := lastTriggerTime e;
     currentAction := currentAction e; randomDraws := randomDraws e;
     finaleTimeouts := finaleTimeouts e; textLoops := textLoops e |}.

Definition setSystems (e : EngineState) (l : list ParticleSystem)
  (draws : nat) : EngineState :=
  {| scene := scene e; textPointsCache := textPointsCache e;
     systems := l; mouseX := mouseX e; mouseY := mouseY e;
     mode := mode e; currentPaletteIndex := currentPaletteIndex e;
     isHandDetected := isHandDetected e; handGesture := handGesture e;
     isPaused := isPaused e; lastTriggerTime := lastTriggerTime e;
     currentAction := currentAction e; randomDraws := draws;
     finaleTimeouts := finaleTimeouts e; textLoops := textLoops e |}.

Definition setPaletteIndex (e : EngineState) (index draws : nat)
  : EngineState :=
  {| scene := scene e; textPointsCache := textPointsCache e;
     systems := systems e; mouseX := mouseX e; mouseY := mouseY e;
     mode := mode e; currentPaletteIndex := index;
     isHandDetected := isHandDetected e; handGesture := handGesture e;
     isPaused := isPaused e; lastTriggerTime := lastTriggerTime e;
     currentAction := currentAction e; randomDraws := draws;
     finaleTimeouts := finaleTimeouts e; textLoops := textLoops e |}.

(** *** The render tick *)

(** The continuous zoom: the camera's new [position.z] and the
    action label. *)
Definition zoom (e : EngineState) (cameraZ : Q) : Q * string :=
  if isHandDetected e then
    let zoomSpeed := 0.2 in
    match handGesture e with
    | PINCH =>
        (Qred (Qmax 10 (cameraZ - zoomSpeed)), "🔍 ZOOM IN (PINCH)")
    | OPEN_PALM =>
        (Qred (Qmin 120 (cameraZ + zoomSpeed)), "🔭 ZOOM OUT (PALM)")
    | _ => (cameraZ, currentAction e)
    end
  else (cameraZ, currentAction e).

(** [animate].  It runs only once [init] has made the scene and
    started the frame loop. *)
Definition animate (e : EngineState) : EngineState :=
  match scene e with
  | None => e
  | Some sc =>
      let nebulaRotation := Qred (nebulaRotation sc + 0.0002) in
      let '(cameraZ, action) := zoom e (cameraZ sc) in
      let interactPos := interactPos P (mouseX e) (mouseY e) cameraZ in
      let cursor :=
        {| cursorPosition := interactPos;
           cursorVisible := isHandDetected e;
           cursorColor :=
             if isHandDetected e
             then (if isPaused e then 0xff0000 else 0x00ffff)%Z
             else cursorColor (cursor sc) |} in
      let e1 :=
        setCurrentAction
          (setScene e {| cameraZ := cameraZ;
                         nebulaRotation := nebulaRotation;
                         cursor := cursor;
                         rendered := S (rendered sc) |})
          action in
      if isPaused e then e1
      else
        let '(l, k) :=
          tickSystems (length (systems e)) (systems e) (randomDraws e) in
        setSystems e1 l k
  end.

(** *** Spawning on request *)

Inductive SpecialShape : Type := HEART | STAR.

Definition shapeName (type : SpecialShape) : string :=
  match type with HEART => "HEART" | STAR => "STAR" end.

Definition spawnSpecialShape (e : EngineState) (type : SpecialShape)
  : EngineState * Outcome :=
  let key := ("SHAPE_" ++ shapeName type)%string in
  spawnRocketFirework e key 1 0 0 (Some (shapeName type)).

Definition texts : list string :=
  ["福"; "春"; "喜"; "✨"; "2026"; "✦"; "★"]%string.

Definition spawnRandomFirework (e : EngineState) : EngineState * Outcome :=
  let '(r1, k) := random (randomDraws e) in
  let randText :=
    default EmptyString
      (texts !! Z.to_nat (Qfloor (r1 * inject_Z (Z.of_nat (length texts)))))
  in
  let '(r2, k) := random k in
  let rx := Qred ((r2 - 0.5) * 80) in
  let '(r3, k) := random k in
  let ry := Qred ((r3 - 0.5) * 40) in
  spawnRocketFirework (setSystems e (systems e) k) randText 0.25 rx ry None.

(** [triggerFinale]: six callbacks, 200 ms apart. *)
Definition triggerFinale (e : EngineState) : EngineState :=
  setFinaleTimeouts e
    (finaleTimeouts e
       ++ map (fun i : nat => (Z.of_nat i * 200)%Z) (seq 0 6)).

(** [cyclePalette].  Its loop draws until the index differs; [fuel]
    bounds the number of draws, and [None] means the bound was
    reached.  Nothing in the service calls it. *)
Fixpoint cyclePaletteLoop (fuel current : nat) : Rand (option nat) :=
  match fuel with
  | O => mret None
  | S fuel' =>
      r ← random;
      let nextIndex :=
        Z.to_nat (Qfloor (r * inject_Z (Z.of_nat (length PALETTES)))) in
      if (nextIndex =? current)%nat then cyclePaletteLoop fuel' current
      else mret (Some nextIndex)
  end.

Definition cyclePalette (fuel : nat) (e : EngineState)
  : option EngineState :=
  let '(r, k) :=
    cyclePaletteLoop fuel (currentPaletteIndex e) (randomDraws e) in
  (fun nextIndex => setPaletteIndex e nextIndex k) <$> r.

(** *** The interaction mapper *)

(** [updateHand]; [now] is the value of [Date.now()] in the call. *)
Definition updateHand (e : EngineState) (x y : Q) (gesture : GestureType)
  (isPresent : bool) (now : Z) : EngineState :=
  match scene e with
  | None => e
  | Some _ =>
      let e := setHand e x y gesture isPresent in
      if negb isPresent then setCurrentAction e "NO SIGNAL"
      else
        match gesture with
        | V_SIGN =>
            if (1500 <? now - lastTriggerTime e)%Z then
              match spawnSpecialShape e HEART with
              | (e, Returned) =>
                  setCurrentAction (setLastTriggerTime e now)
                    "❤ LOVE (V-SIGN)"
              | (e, Threw) => e
              end
            else e
        | OK_SIGN =>
            if (3000 <? now - lastTriggerTime e)%Z then
              setCurrentAction
                (setLastTriggerTime (triggerFinale e) now)
                "🎆 FINALE (OK)"
            else e
        | PINCH | OPEN_PALM => e
        | _ => setCurrentAction e "READY"
        end
  end.

(** *** The scripted sequence *)

Definition sequence : list string :=
  ["2026"; "祝大家"; "新年快乐"; "马到成功"]%string.

(** [runTextLoop] from the spawn of phrase [index] to the first
    [await] of the display wait.  A throwing spawn ends the run. *)
Definition textLoopSpawn (e : EngineState) (index : nat)
  : EngineState * option TextLoop :=
  let text := default EmptyString (sequence !! index) in
  let scale := if (2 <? jsLength text)%nat then 0.25 else 0.35 in
  match spawnRocketFirework e text scale 0 0 None with
  | (e, Returned) => (e, Some (AwaitDisplay index 0))
  | (e, Threw) => (e, None)
  end.

(** ... from the pause gate [while (this.isPaused())] ... *)
Definition textLoopGate (e : EngineState) (index : nat)
  : EngineState * option TextLoop :=
  if isPaused e then (e, Some (AwaitResume index))
  else textLoopSpawn e index.

(** ... and from the top of [while (true)]. *)
Definition textLoopTop (e : EngineState) (index : nat)
  : EngineState * option TextLoop :=
  match mode e with
  | SHOW => textLoopGate e index
  | COUNTDOWN => (e, None)
  end.

(** A suspended run goes on when its 100 ms sleep is over. *)
Definition wakeTextLoop (e : EngineState) (l : TextLoop)
  : EngineState * option TextLoop :=
  match l with
  | AwaitResume index => textLoopGate e index
  | AwaitDisplay index elapsed =>
      let duration := 4000%Z in
      let elapsed := if isPaused e then elapsed else (elapsed + 100)%Z in
      if (elapsed <? duration)%Z then (e, Some (AwaitDisplay index elapsed))
      else textLoopTop e ((index + 1) mod length sequence)%nat
  end.

Definition startShow (e : EngineState) : EngineState :=
  let e := setMode (setCurrentAction e "SHOW STARTED") SHOW in
  match textLoopTop e 0 with
  | (e, Some l) => setTextLoops e (textLoops e ++ [l])
  | (e, None) => e
  end.

(** *** Start-up *)

(** [init]: the scene is made, with the camera at [z = 50] and the
    cursor hidden, and the first [animate] runs at once. *)
Definition init (e : EngineState) : EngineState :=
  let sc :=
    {| cameraZ := 50;
       nebulaRotation := 0;
       cursor := {| cursorPosition := {| vx := 0; vy := 0; vz := 0 |};
                    cursorVisible := false;
                    cursorColor := 0x00ffff |};
       rendered := 0 |} in
  animate (setCurrentAction (setScene e sc) "READY").

(** [currentTheme] *)
Definition currentTheme (e : EngineState) : string :=
  default EmptyString (name <$> PALETTES !! currentPaletteIndex e).

(** *** The service as a transition system *)

(** The service when it is constructed. *)
Definition initial : EngineState :=
  {| scene := None; textPointsCache := ∅; systems := [];
     mouseX := 0; mouseY := 0; mode := COUNTDOWN;
     currentPaletteIndex := 1;
     isHandDetected := false; handGesture := IDLE;
     isPaused := false; lastTriggerTime := 0;
     currentAction := "WAITING"; randomDraws := 0;
     finaleTimeouts := []; textLoops := [] |}.

(** Everything that can run code of the service: calls of its
    public members, and the callbacks it has registered with the
    host (the animation frame, the timeouts of the finale, the
    sleeps of the text loops). *)
Inductive Event : Type :=
| Init
| StartShow
| UpdateHand (x y : Q) (gesture : GestureType) (isPresent : bool) (now : Z)
| SpawnSpecialShape (type : SpecialShape)
| SetPaused (b : bool)
| Frame
| FinaleTimeout (k : nat)
| TextLoopWake (k : nat).

Definition step (e : EngineState) (ev : Event) : EngineState :=
  match ev with
  | Init => init e
  | StartShow => startShow e
  | UpdateHand x y gesture isPresent now =>
      updateHand e x y gesture isPresent now
  | SpawnSpecialShape type => fst (spawnSpecialShape e type)
  | SetPaused b => setPaused e b
  | Frame => animate e
  | FinaleTimeout k =>
      match finaleTimeouts e !! k with
      | None => e
      | Some _ =>
          fst (spawnRandomFirework
                 (setFinaleTimeouts e (delete k (finaleTimeouts e))))
      end
  | TextLoopWake k =>
      match textLoops e !! k with
      | None => e
      | Some l =>
          match wakeTextLoop e l with
          | (e', Some l') => setTextLoops e' (<[k := l']> (textLoops e'))
          | (e', None) => setTextLoops e' (delete k (textLoops e'))
          end
      end
  end.

(** The service after a sequence of events, earliest first. *)
Definition run (evs : list Event) : EngineState :=
  fold_left step evs initial.

(** *** One system followed over several ticks *)

(** The first [n] ticks of a system registered in [systems], the
    [i]-th of them run when [Math.random] has been drawn [cursors i]
    times, which depends on what else the service has done by then;
    once the system has been spliced out, no tick touches it again. *)
Fixpoint ticks (cursors : nat -> nat) (n : nat) (sys : ParticleSystem)
  : option ParticleSystem :=
  match n with
  | O => Some sys
  | S n' =>
      match ticks cursors n' sys with
      | Some sys' => fst (tickSystem sys' (cursors n'))
      | None => None
      end
  end.

(** One tick of every system of a registry, last system first: what
    the loop of [animate] amounts to. *)
Fixpoint tickAll (l : list ParticleSystem) : Rand (list ParticleSystem) :=
  match l with
  | [] => mret []
  | sys :: rest =>
      rest' ← tickAll rest;
      r ← tickSystem sys;
      mret (match r with Some sys' => sys' :: rest' | None => rest' end)
  end.

(** Each of the first [n] particles of a color buffer has the
    [r], [g], [b] of one of the colors of [palette]. *)
Definition colorsFrom (palette : list Z) (n : nat) (colors : list Q)
  : Prop :=
  forall i : nat, (i < n)%nat ->
    exists hex : Z,
      hex ∈ palette
      /\ colors !! (i*3)%nat = Some (vx (setHex P hex))
      /\ colors !! (i*3+1)%nat = Some (vy (setHex P hex))
      /\ colors !! (i*3+2)%nat = Some (vz (setHex P hex)).

(** *** Invariants of the service *)

(** The entry of the cache under the key of the heart, if any, is
    the heart curve. *)
Definition heartCached (e : EngineState) : Prop :=
  forall pts, textPointsCache e !! "HEART"%string = Some pts ->
              pts = heartPoints.

Definition cameraInRange (e : EngineState) : Prop :=
  forall sc, scene e = Some sc -> 10 <= cameraZ sc /\ cameraZ sc <= 120.

Definition invariant (e : EngineState) : Prop :=
  currentPaletteIndex e = 1%nat /\ cameraInRange e /\ heartCached e.

End WithPlatform.

(** The point stands for a pixel of the image, at the given scale. *)
Definition scaledBy (img : ImageData) (scale : Q) (p : Vector3) : Prop :=
  exists x y : nat,
    (x < width img)%nat /\ (y < 150)%nat
    /\ vx p == (inject_Z (Z.of_nat x)
                - inject_Z (Z.of_nat (width img)) / 2) * scale
    /\ vy p == - (inject_Z (Z.of_nat y) - 100 * 1.5 / 2) * scale.

(** The key under which a request is cached is the key of the heart
    for the heart only. *)
Definition heartKeyed (text : string) (shapeType : option string) : Prop :=
  cacheKeyOf text shapeType = "HEART"%string ->
  shapeType = Some "HEART"%string.

(** A spawn leaves all of this as it is: it writes the cache, the
    registry and the count of random draws only. *)
Definition sameControls (e e' : EngineState) : Prop :=
  scene e' = scene e
  /\ mouseX e' = mouseX e /\ mouseY e' = mouseY e
  /\ mode e' = mode e
  /\ currentPaletteIndex e' = currentPaletteIndex e
  /\ isHandDetected e' = isHandDetected e
  /\ handGesture e' = handGesture e
  /\ isPaused e' = isPaused e
  /\ lastTriggerTime e' = lastTriggerTime e
  /\ currentAction e' = currentAction e
  /\ finaleTimeouts e' = finaleTimeouts e
  /\ textLoops e' = textLoops e.

(** The two buffers that a loop over the particles works on have these
    lengths. *)
Definition lengths2 (n m : nat) (pq : list Q * list Q) : Prop :=
  length (fst pq) = n /\ length (snd pq) = m.

(** The system has [N] particles: each of its buffers holds [3 * N]
    numbers. *)
Definition hasParticles (N : nat) (sys : ParticleSystem) : Prop :=
  length (currentPositions sys) = (3 * N)%nat
  /\ length (originalPositions sys) = (3 * N)%nat
  /\ length (velocities sys) = (3 * N)%nat
  /\ length (colors sys) = (3 * N)%nat.

(** A system as a spawn leaves it: a rocket that climbs, its timer
    at 0, every buffer three numbers per particle. *)
Definition fresh (sys : ParticleSystem) : Prop :=
  state sys = ROCKET /\ timer sys == 0 /\ 0 < vy (rocketVelocity sys)
  /\ exists N, hasParticles N sys.

(** The registry of [e'] is the registry of [e] with at most one fresh
    system added at its end. *)
Definition appended (e e' : EngineState) : Prop :=
  exists new, systems e' = systems e ++ new
              /\ (length new <= 1)%nat /\ Forall fresh new.

(** The place of a system in its life: the four states in the order
    of the design, then removal from the registry. *)
Definition stage (r : option ParticleSystem) : nat :=
  match r with
  | Some sys =>
      match state sys with
      | ROCKET => 0
      | EXPLODING => 1
      | WEAVING => 2
      | FADING => 3
      end
  | None => 4
  end.



End Engine.

(** ** A concrete platform and concrete inputs

    Stand-ins for the browser, on which the definitions above can be
    run: a square root to four decimals, polynomial sine and
    cosine, a fixed sequence of random draws, a canvas two pixels wide
    on which every text but the empty one lights its first three
    pixels, and the [setHex] of three.js without color management. *)

Module Demo.

Import Gesture Engine.

(** The square root, rounded down to four decimals. *)
Definition Msqrt (a : Q) : Q :=
  inject_Z (Z.sqrt (Qfloor (a * 100000000))) / 10000.

Definition image : ImageData :=
  {| width := 2; data := fun i => if (i <? 12)%nat then 255%Z else 0%Z |}.

(** What the empty text renders to: no pixel is lit. *)
Definition blank : ImageData := {| width := 2; data := fun _ => 0%Z |}.

Definition platform : Platform :=
  {| Msin := fun t => Qred (t - t ^ 3 / 6);
     Mcos := fun t => Qred (1 - t ^ 2 / 2);
     MPI := 3.1416;
     randomSource :=
       fun k => (Z.of_nat k * 2654435761 * 2097152 + 4503599627370495)%Z;
     renderText :=
       fun text => Some (if String.eqb text EmptyString then blank else image);
     setHex :=
       fun hex =>
         {| vx := Qred (inject_Z (Z.land (Z.shiftr hex 16) 255) / 255);
            vy := Qred (inject_Z (Z.land (Z.shiftr hex 8) 255) / 255);
            vz := Qred (inject_Z (Z.land hex 255) / 255) |};
     interactPos :=
       fun mx my z => {| vx := Qred (mx * z); vy := Qred (my * z); vz := 0 |}
  |}.

(** A hand making the OK sign: thumb tip on index tip, the other
    three fingers stretched. *)
Definition hand : list Landmark :=
  [ {| x := 0.5; y := 0.9; z := 0 |};
    {| x := 0.42; y := 0.8; z := 0 |};
    {| x := 0.4; y := 0.7; z := 0 |};
    {| x := 0.42; y := 0.6; z := 0 |};
    {| x := 0.45; y := 0.5; z := 0 |};
    {| x := 0.45; y := 0.7; z := 0 |};
    {| x := 0.44; y := 0.6; z := 0 |};
    {| x := 0.45; y := 0.55; z := 0 |};
    {| x := 0.46; y := 0.5; z := 0 |};
    {| x := 0.5; y := 0.7; z := 0 |};
    {| x := 0.5; y := 0.55; z := 0 |};
    {| x := 0.5; y := 0.4; z := 0 |};
    {| x := 0.5; y := 0.3; z := 0 |};
    {| x := 0.55; y := 0.7; z := 0 |};
    {| x := 0.56; y := 0.55; z := 0 |};
    {| x := 0.57; y := 0.42; z := 0 |};
    {| x := 0.58; y := 0.33; z := 0 |};
    {| x := 0.6; y := 0.72; z := 0 |};
    {| x := 0.62; y := 0.6; z := 0 |};
    {| x := 0.64; y := 0.5; z := 0 |};
    {| x := 0.66; y := 0.42; z := 0 |} ].

(** The same hand with the thumb moved away from the index: an open
    palm. *)
Definition palm : list Landmark :=
  <[4%nat := {| x := 0.3; y := 0.6; z := 0 |}]> hand.

(** The service once [init] has run. *)
Definition started : EngineState := run platform [Init].

(** The system that the first phrase of the show spawns. *)
Definition firstSystem : ParticleSystem :=
  default (newSystem
             {| b_currentPos := []; b_originalPos := [];
                b_velocities := []; b_colors := [] |} 0 0 0)
    (systems (fst (spawnRocketFirework platform started "2026" 0.25 0 0 None))
       !! 0%nat).

(** That system two ticks later. *)
Definition tickedSystem : ParticleSystem :=
  default firstSystem (ticks platform (fun i => (16 + 9 * i)%nat) 2 firstSystem).

(** The service with a hand pinching at (0.2, 0.3), and one render
    tick later. *)
Definition pinching : list Event :=
  [Init; UpdateHand 0.2 0.3 PINCH true 5000; Frame].


(** The scene of a service that has one. *)
Definition sceneOf (e : EngineState) : Scene :=
  default {| cameraZ := 0; nebulaRotation := 0;
             cursor := {| cursorPosition := {| vx := 0; vy := 0; vz := 0 |};
                          cursorVisible := false; cursorColor := 0 |};
             rendered := 0 |}
    (scene e).

(** A system without particles, its rocket climbing one unit per
    tick from 60 below its target. *)
Definition bare : ParticleSystem :=
  newSystem {| b_currentPos := []; b_originalPos := [];
               b_velocities := []; b_colors := [] |} 0 0 1.

End Demo.

(** ** Properties of the comparisons *)

Module NumFacts.

Import Num.

Lemma Qltb_true (a b : Q) : Qltb a b = true <-> a < b.
Proof.
  unfold Qltb. rewrite negb_true_iff. split.
  - intros H. apply Qnot_le_lt. intros Hle.
    apply Qle_bool_iff in Hle. congruence.
  - intros H. destruct (Qle_bool b a) eqn:E; [|reflexivity].
    apply Qle_bool_iff in E. exfalso. exact (Qlt_not_le _ _ H E).
Qed.

Lemma Qltb_false (a b : Q) : Qltb a b = false <-> b <= a.
Proof.
  unfold Qltb. rewrite negb_false_iff. apply Qle_bool_iff.
Qed.

Lemma Qgeb_true (a b : Q) : Qgeb a b = true <-> b <= a.
Proof. unfold Qgeb. apply Qle_bool_iff. Qed.



End NumFacts.

(** ** Properties of the classifier *)

Module GestureFacts.

Import Num NumFacts Gesture.

(** Every finger test and the classification itself succeed on a
    hand of 21 landmarks. *)
Lemma isFingerExtended_total (Msqrt : Q -> Q) (landmarks : list Landmark)
  (tipIdx : nat) :
  (tipIdx < length landmarks)%nat ->
  is_Some (isFingerExtended Msqrt landmarks tipIdx).
Proof.
  intros Hlen. unfold isFingerExtended.
  destruct (lookup_lt_is_Some_2 landmarks tipIdx Hlen) as [tip ->].
  destruct (lookup_lt_is_Some_2 landmarks (tipIdx - 3) ltac:(lia))
    as [mcp ->].
  destruct (lookup_lt_is_Some_2 landmarks 0 ltac:(lia)) as [wrist ->].
  simpl. eauto.
Qed.

(** C7. On a hand of 21 landmarks the classifier returns a hand
    state; when the distance it computes between thumb tip and index
    tip is at least 0.05 the gesture is neither PINCH nor OK_SIGN; when
    that distance is below 0.05 and the four fingers are not all
    curled, the gesture is OK_SIGN if middle, ring and pinky are
    extended, and PINCH otherwise. *)
Theorem pinch_threshold (Msqrt : Q -> Q) (landmarks : list Landmark) :
  length landmarks = 21%nat ->
  exists hs thumbTip indexTip isIndexExt isMiddleExt isRingExt isPinkyExt,
    processHand Msqrt landmarks = Some hs
    /\ landmarks !! 4%nat = Some thumbTip
    /\ landmarks !! 8%nat = Some indexTip
    /\ isFingerExtended Msqrt landmarks 8 = Some isIndexExt
    /\ isFingerExtended Msqrt landmarks 12 = Some isMiddleExt
    /\ isFingerExtended Msqrt landmarks 16 = Some isRingExt
    /\ isFingerExtended Msqrt landmarks 20 = Some isPinkyExt
    /\ (0.05 <= getDistance Msqrt thumbTip indexTip ->
        gesture hs <> PINCH /\ gesture hs <> OK_SIGN)
    /\ (getDistance Msqrt thumbTip indexTip < 0.05 ->
        (isIndexExt || isMiddleExt || isRingExt || isPinkyExt) = true ->
        gesture hs = if isMiddleExt && isRingExt && isPinkyExt
                     then OK_SIGN else PINCH).
Proof.
  intros Hlen.
  destruct (lookup_lt_is_Some_2 landmarks 4 ltac:(lia)) as [thumbTip Ht].
  destruct (lookup_lt_is_Some_2 landmarks 8 ltac:(lia)) as [indexTip Hi].
  destruct (isFingerExtended_total Msqrt landmarks 8 ltac:(lia)) as [a Ha].
  destruct (isFingerExtended_total Msqrt landmarks 12 ltac:(lia)) as [b Hb].
  destruct (isFingerExtended_total Msqrt landmarks 16 ltac:(lia)) as [c Hc].
  destruct (isFingerExtended_total Msqrt landmarks 20 ltac:(lia)) as [d Hd].
  unfold processHand. rewrite Ht, Hi, Ha, Hb, Hc, Hd. simpl.
  eexists _, thumbTip, indexTip, a, b, c, d.
  split; [reflexivity|]. do 6 (split; [reflexivity|]). simpl.
  destruct (Qltb (getDistance Msqrt thumbTip indexTip) 0.05) eqn:Ep.
  - apply Qltb_true in Ep. split.
    + intros Hge. exfalso. lra.
    + intros _ Hany. destruct a, b, c, d; simpl in *;
        try reflexivity; discriminate.
  - apply Qltb_false in Ep. split.
    + intros _. destruct a, b, c, d; simpl; split; discriminate.
    + intros Hlt. exfalso. lra.
Qed.

Example demo_hands :
  gesture <$> processHand Demo.Msqrt Demo.hand = Some OK_SIGN
  /\ gesture <$> processHand Demo.Msqrt Demo.palm = Some OPEN_PALM.
Proof. vm_compute. split; reflexivity. Qed.

(** C7 on the two demo hands: the theorem makes the pinched hand an
    OK sign, as its other three fingers are stretched, and keeps the
    open hand from being a PINCH or an OK sign. *)
Lemma pinch_threshold_witness :
  (length Demo.hand = 21%nat
   /\ exists hs, processHand Demo.Msqrt Demo.hand = Some hs
                 /\ gesture hs = OK_SIGN)
  /\ (length Demo.palm = 21%nat
      /\ exists hs, processHand Demo.Msqrt Demo.palm = Some hs
                    /\ gesture hs <> PINCH /\ gesture hs <> OK_SIGN).
Proof.
  split.
  - assert (H : length Demo.hand = 21%nat) by reflexivity.
    split; [exact H|].
    destruct (pinch_threshold Demo.Msqrt Demo.hand H)
      as (hs & thumbTip & indexTip & a & b & c & d
          & Hp & Ht & Hi & Ha & Hb & Hc & Hd & _ & Hlt).
    exists hs. split; [exact Hp|].
    vm_compute in Ht. injection Ht as <-.
    vm_compute in Hi. injection Hi as <-.
    vm_compute in Ha. injection Ha as <-.
    vm_compute in Hb. injection Hb as <-.
    vm_compute in Hc. injection Hc as <-.
    vm_compute in Hd. injection Hd as <-.
    apply Hlt; [vm_compute|]; reflexivity.
  - assert (H : length Demo.palm = 21%nat) by reflexivity.
    split; [exact H|].
    destruct (pinch_threshold Demo.Msqrt Demo.palm H)
      as (hs & thumbTip & indexTip & a & b & c & d
          & Hp & Ht & Hi & _ & _ & _ & _ & Hge & _).
    exists hs. split; [exact Hp|].
    vm_compute in Ht. injection Ht as <-.
    vm_compute in Hi. injection Hi as <-.
    apply Hge. vm_compute. discriminate.
Defined.

End GestureFacts.

(** ** Properties of the engine *)

Module EngineFacts.

Import Num NumFacts Engine.

(** ** Triples *)

Lemma triple_eq {A B C : Type} (a a' : A) (b b' : B) (c c' : C) :
  (a, b, c) = (a', b', c') -> a = a' /\ b = b' /\ c = c'.
Proof. intros H. injection H. auto. Qed.

Lemma fst3 {A B C : Type} (a : A) (b : B) (c : C) : fst (fst (a, b, c)) = a.
Proof. reflexivity. Qed.

(** ** Loops *)

(** A property kept by every round holds when the loop is over. *)
Lemma forLoop_invariant {S : Type} (I : S -> Prop)
  (body : nat -> S -> Rand S) (n : nat) :
  (forall j s k, I s -> I (fst (body j s k))) ->
  forall from s k, I s -> I (fst (forLoop n from body s k)).
Proof.
  intros Hbody. induction n as [|n IH]; intros from s k Hs; simpl.
  - exact Hs.
  - unfold mbind, rand_bind, bind.
    destruct (body from s k) as [s' k'] eqn:E.
    apply IH. specialize (Hbody from s k Hs). rewrite E in Hbody. exact Hbody.
Qed.

(** The same with the round number: [I j] holds before round [j]. *)
Lemma forLoop_invariant_indexed {S : Type} (I : nat -> S -> Prop)
  (body : nat -> S -> Rand S) (n : nat) :
  forall from,
  (forall j s k, (from <= j < from + n)%nat -> I j s ->
                 I (Datatypes.S j) (fst (body j s k))) ->
  forall s k, I from s -> I (from + n)%nat (fst (forLoop n from body s k)).
Proof.
  induction n as [|n IH]; intros from Hbody s k Hs; simpl.
  - rewrite Nat.add_0_r. exact Hs.
  - unfold mbind, rand_bind, bind.
    destruct (body from s k) as [s' k'] eqn:E.
    replace (from + Datatypes.S n)%nat with (Datatypes.S from + n)%nat by lia.
    apply IH.
    + intros j s0 k0 Hj. apply Hbody. lia.
    + specialize (Hbody from s k ltac:(lia) Hs). rewrite E in Hbody.
      exact Hbody.
Qed.

(** The same for a property of the state and of the cursor. *)
Lemma forLoop_invariant_draws {S : Type} (I : S -> nat -> Prop)
  (body : nat -> S -> Rand S) (n : nat) :
  (forall j s k, I s k -> I (fst (body j s k)) (snd (body j s k))) ->
  forall from s k,
    I s k -> I (fst (forLoop n from body s k)) (snd (forLoop n from body s k)).
Proof.
  intros Hbody. induction n as [|n IH]; intros from s k Hs; simpl.
  - exact Hs.
  - unfold mbind, rand_bind, bind.
    specialize (Hbody from s k Hs).
    destruct (body from s k) as [s' k']. apply IH. exact Hbody.
Qed.

Ltac rand_unfold :=
  unfold mbind, rand_bind, mret, rand_ret, bind, ret in *.

(** ** Buffers keep their length *)

Section Lengths.

Variable P : Platform.

Lemma rocketTrail_lengths n m rocketPos j pc k :
  lengths2 n m pc -> lengths2 n m (fst (rocketTrail P rocketPos j pc k)).
Proof.
  destruct pc as [p c]. unfold lengths2, rocketTrail, random. rand_unfold.
  simpl. intros [Hp Hc].
  destruct (Qltb _ _); simpl; rewrite !length_insert; auto.
Qed.

Lemma restoreColors_length colors k :
  length (fst (restoreColors colors k)) = length colors.
Proof.
  unfold restoreColors.
  apply (forLoop_invariant (fun c => length c = length colors)); [|reflexivity].
  intros j s k0 Hs. rand_unfold. simpl. rewrite length_insert. exact Hs.
Qed.

Lemma explodeParticle_lengths n m j pv k :
  lengths2 n m pv -> lengths2 n m (fst (explodeParticle j pv k)).
Proof.
  destruct pv as [p v]. unfold lengths2, explodeParticle. rand_unfold.
  simpl. intros [Hp Hv]. rewrite !length_insert; auto.
Qed.

Lemma weaveParticle_length sys moveFactor spread j positions k :
  length (fst (weaveParticle P sys moveFactor spread j positions k))
  = length positions.
Proof.
  unfold weaveParticle, random. rand_unfold. simpl.
  rewrite !length_insert. reflexivity.
Qed.

Lemma fadeParticle_length j positions k :
  length (fst (fadeParticle P j positions k)) = length positions.
Proof.
  unfold fadeParticle, random. rand_unfold. simpl.
  rewrite !length_insert. reflexivity.
Qed.

(** What the branch taken for its state keeps of a system, and how
    far the state can move. *)
Lemma tickBranch_Some sys k sys' :
  fst (match state sys with
       | ROCKET => tickRocket P sys
       | EXPLODING => tickExploding sys
       | WEAVING => tickWeaving P sys
       | FADING => tickFading P sys
       end k) = Some sys' ->
  length (currentPositions sys') = length (currentPositions sys)
  /\ originalPositions sys' = originalPositions sys
  /\ length (velocities sys') = length (velocities sys)
  /\ length (colors sys') = length (colors sys)
  /\ rocketVelocity sys' = rocketVelocity sys
  /\ targetY sys' = targetY sys
  /\ (stage (Some sys') = stage (Some sys)
      \/ stage (Some sys') = S (stage (Some sys))).
Proof.
  unfold stage at 2 4.
  destruct (state sys) eqn:Est.
  - (* ROCKET *)
    unfold tickRocket. rand_unfold. simpl.
    set (rp := addVector _ _).
    pose proof (forLoop_invariant
      (lengths2 (length (currentPositions sys)) (length (colors sys)))
      (rocketTrail P rp) (thirds (length (currentPositions sys)))
      (fun j s k0 => rocketTrail_lengths _ _ rp j s k0)
      0%nat (currentPositions sys, colors sys) k (conj eq_refl eq_refl))
      as Hl.
    destruct (forLoop _ _ _ _ k) as [[p c] k1]. destruct Hl as [Hp Hc].
    simpl in Hp, Hc.
    destruct (Qgeb _ _).
    + pose proof (restoreColors_length c k1) as Hr.
      destruct (restoreColors c k1) as [c' k2]. simpl in *.
      intros [= <-]. simpl.
      repeat split; try congruence. right. reflexivity.
    + simpl. intros [= <-]. simpl.
      repeat split; try congruence. left. reflexivity.
  - (* EXPLODING *)
    unfold tickExploding. rand_unfold. simpl.
    pose proof (forLoop_invariant
      (lengths2 (length (currentPositions sys)) (length (velocities sys)))
      explodeParticle (thirds (length (currentPositions sys)))
      (fun j s k0 => explodeParticle_lengths _ _ j s k0)
      0%nat (currentPositions sys, velocities sys) k (conj eq_refl eq_refl))
      as Hl.
    destruct (forLoop _ _ _ _ k) as [[p v] k1]. destruct Hl as [Hp Hv].
    simpl in *. intros [= <-]. simpl.
    repeat split; try congruence.
    destruct (Qltb _ _); [right|left]; reflexivity.
  - (* WEAVING *)
    unfold tickWeaving. rand_unfold. simpl.
    match goal with |- context [forLoop ?n 0%nat ?b ?s k] =>
      pose proof (forLoop_invariant
        (fun p => length p = length (currentPositions sys)) b n
        (fun j s0 k0 H => eq_trans (weaveParticle_length _ _ _ j s0 k0) H)
        0%nat s k eq_refl) as Hl;
      destruct (forLoop n 0%nat b s k) as [p k1]
    end.
    simpl in *. intros [= <-]. simpl.
    repeat split; try congruence.
    destruct (Qltb _ _); [right|left]; reflexivity.
  - (* FADING *)
    unfold tickFading. rand_unfold. simpl.
    match goal with |- context [forLoop ?n 0%nat ?b ?s k] =>
      pose proof (forLoop_invariant
        (fun p => length p = length (currentPositions sys)) b n
        (fun j s0 k0 H => eq_trans (fadeParticle_length j s0 k0) H)
        0%nat s k eq_refl) as Hl;
      destruct (forLoop n 0%nat b s k) as [p k1]
    end.
    simpl in *. destruct (Qle_bool _ _); simpl; [discriminate|].
    intros [= <-]. simpl.
    repeat split; try congruence. left. reflexivity.
Qed.

(** What one tick keeps of a system that stays registered. *)
Lemma tickSystem_Some sys k sys' :
  fst (tickSystem P sys k) = Some sys' ->
  length (currentPositions sys') = length (currentPositions sys)
  /\ originalPositions sys' = originalPositions sys
  /\ length (velocities sys') = length (velocities sys)
  /\ length (colors sys') = length (colors sys)
  /\ rocketVelocity sys' = rocketVelocity sys
  /\ targetY sys' = targetY sys
  /\ (stage (Some sys') = stage (Some sys)
      \/ stage (Some sys') = S (stage (Some sys))).
Proof.
  intros H. exact (tickBranch_Some (advanceTimer sys) k sys' H).
Qed.


End Lengths.

(** ** Random draws *)

Lemma random_range (P : Platform) (k : nat) :
  0 <= fst (random P k) /\ fst (random P k) < 1.
Proof.
  unfold random. simpl.
  pose proof (Z.mod_pos_bound (randomSource P k) (2 ^ 53) eq_refl) as [H0 H1].
  split.
  - rewrite Qred_correct. unfold Qle. simpl. lia.
  - rewrite Qred_correct. unfold Qlt. simpl. lia.
Qed.

(** [Math.floor(Math.random() * n)] is an index below [n]. *)
Lemma random_index (P : Platform) (k n : nat) :
  (0 < n)%nat ->
  (Z.to_nat (Qfloor (fst (random P k) * inject_Z (Z.of_nat n))) < n)%nat.
Proof.
  intros Hn. destruct (random_range P k) as [H0 H1].
  set (r := fst (random P k)) in *.
  assert (Hlo : (0 <= Qfloor (r * inject_Z (Z.of_nat n)))%Z).
  { change 0%Z with (Qfloor 0). apply Qfloor_resp_le.
    apply Qmult_le_0_compat; [exact H0|].
    change 0 with (inject_Z 0). rewrite <- Zle_Qle. lia. }
  assert (Hhi : (Qfloor (r * inject_Z (Z.of_nat n)) < Z.of_nat n)%Z).
  { rewrite Zlt_Qlt.
    eapply Qle_lt_trans; [apply Qfloor_le|].
    rewrite <- (Qmult_1_l (inject_Z (Z.of_nat n))) at 2.
    apply Qmult_lt_compat_r; [|exact H1].
    change 0 with (inject_Z 0). rewrite <- Zlt_Qlt. lia. }
  lia.
Qed.

(** ** Spawning *)

Section Spawning.

Variable P : Platform.

(** The loop of [spawnRocketFirework] fills four buffers of
    [3 * count] numbers and takes every color from the palette. *)
Lemma initParticle_loop targets palette startX startY startZ count k :
  palette <> [] ->
  let b := fst (forLoop count 0
                  (initParticle P targets palette startX startY startZ)
                  {| b_currentPos := Float32Array (count * 3);
                     b_originalPos := Float32Array (count * 3);
                     b_velocities := Float32Array (count * 3);
                     b_colors := Float32Array (count * 3) |} k) in
  length (b_currentPos b) = (3 * count)%nat
  /\ length (b_originalPos b) = (3 * count)%nat
  /\ length (b_velocities b) = (3 * count)%nat
  /\ length (b_colors b) = (3 * count)%nat
  /\ colorsFrom P palette count (b_colors b).
Proof.
  intros Hpal.
  pose (I := fun (j : nat) (b : Buffers) =>
    length (b_currentPos b) = (3 * count)%nat
    /\ length (b_originalPos b) = (3 * count)%nat
    /\ length (b_velocities b) = (3 * count)%nat
    /\ length (b_colors b) = (3 * count)%nat
    /\ colorsFrom P palette j (b_colors b)).
  apply (forLoop_invariant_indexed I _ count 0%nat).
  - intros j b k0 Hj (H1 & H2 & H3 & H4 & H5).
    unfold I, initParticle, random. rand_unfold. simpl.
    rewrite !length_insert. repeat split; try assumption.
    intros i Hi.
    assert (Hidx := random_index P (S (S (S k0))) (length palette)
                      ltac:(destruct palette; [congruence|simpl; lia])).
    unfold random in Hidx. simpl in Hidx.
    destruct (palette !! _) as [hex|] eqn:Ehex;
      [|apply lookup_ge_None in Ehex; lia].
    destruct (decide (i = j)) as [->|Hne].
    + exists hex. simpl. split; [eapply list_elem_of_lookup_2; eauto|].
      repeat split.
      * rewrite list_lookup_insert_ne by lia.
        rewrite list_lookup_insert_ne by lia.
        apply list_lookup_insert_eq. lia.
      * rewrite list_lookup_insert_ne by lia.
        apply list_lookup_insert_eq. rewrite length_insert. lia.
      * apply list_lookup_insert_eq. rewrite !length_insert. lia.
    + destruct (H5 i ltac:(lia)) as (hex' & Hin & Ha & Hb & Hc).
      exists hex'. split; [exact Hin|].
      rewrite !list_lookup_insert_ne by lia. auto.
  - unfold I, Float32Array. simpl. rewrite !length_replicate.
    repeat split; try lia. intros i Hi. lia.
Qed.

Lemma initParticle_loop_lengths targets palette startX startY startZ
  count k :
  let b := fst (forLoop count 0
                  (initParticle P targets palette startX startY startZ)
                  {| b_currentPos := Float32Array (count * 3);
                     b_originalPos := Float32Array (count * 3);
                     b_velocities := Float32Array (count * 3);
                     b_colors := Float32Array (count * 3) |} k) in
  length (b_currentPos b) = (3 * count)%nat
  /\ length (b_originalPos b) = (3 * count)%nat
  /\ length (b_velocities b) = (3 * count)%nat
  /\ length (b_colors b) = (3 * count)%nat.
Proof.
  apply (forLoop_invariant (fun b : Buffers =>
    length (b_currentPos b) = (3 * count)%nat
    /\ length (b_originalPos b) = (3 * count)%nat
    /\ length (b_velocities b) = (3 * count)%nat
    /\ length (b_colors b) = (3 * count)%nat)).
  - intros j b k0 H. unfold initParticle, random. rand_unfold. simpl.
    rewrite !length_insert. exact H.
  - unfold Float32Array. simpl. rewrite !length_replicate. lia.
Qed.

(** The three ways a spawn can end: nothing to show, no scene to
    add the mesh to, or a new system at the end of the registry. *)
Lemma spawn_cases e text scale targetX targetY shapeType targets cache k0 :
  getPointsFromTextCanvas P (textPointsCache e) text scale shapeType
    (randomDraws e) = (targets, cache, k0) ->
  (targets = []
   /\ spawnRocketFirework P e text scale targetX targetY shapeType
      = (setCacheAndDraws e cache k0, Returned))
  \/ (targets <> [] /\ scene e = None
      /\ exists k,
           spawnRocketFirework P e text scale targetX targetY shapeType
           = (setCacheAndDraws e cache k, Threw))
  \/ (targets <> [] /\ is_Some (scene e)
      /\ exists k b speed,
           spawnRocketFirework P e text scale targetX targetY shapeType
           = (pushSystem (setCacheAndDraws e cache k)
                (newSystem b targetX targetY speed), Returned)
           /\ hasParticles (length targets)
                (newSystem b targetX targetY speed)
           /\ (paletteColors (currentPaletteIndex e) <> [] ->
               colorsFrom P (paletteColors (currentPaletteIndex e))
                 (length targets) (b_colors b))
           /\ 0.8 <= speed).
Proof.
  intros Hget. unfold spawnRocketFirework. rewrite Hget.
  destruct targets as [|t ts] eqn:Et.
  { left. split; reflexivity. }
  right. rewrite <- Et. set (count := length targets).
  assert (Hcount : (count =? 0)%nat = false).
  { apply Nat.eqb_neq. subst count targets. simpl. lia. }
  rewrite Hcount.
  pose proof (initParticle_loop_lengths targets
                (paletteColors (currentPaletteIndex e)) targetX (-60) 0
                count k0) as Hlen.
  pose proof (initParticle_loop targets
                (paletteColors (currentPaletteIndex e)) targetX (-60) 0
                count k0) as Hcol.
  simpl in Hlen, Hcol.
  destruct (forLoop count 0 _ _ k0) as [b k1]. simpl in Hlen, Hcol.
  destruct (scene e) as [sc|] eqn:Esc.
  - right. split; [subst targets; discriminate|]. split; [eauto|].
    pose proof (random_range P k1) as [Hr0 Hr1].
    destruct (random P k1) as [r k2] eqn:Er. simpl in Hr0, Hr1.
    exists k2, b, (Qred (0.8 + r * 0.4)). split; [reflexivity|].
    split; [exact Hlen|]. split.
    + intros Hpal. apply Hcol. exact Hpal.
    + rewrite Qred_correct.
      rewrite <- (Qplus_0_r 0.8) at 1. apply Qplus_le_r.
      apply Qmult_le_0_compat; [exact Hr0|]. discriminate.
  - left. split; [subst targets; discriminate|]. split; [reflexivity|].
    exists k1. reflexivity.
Qed.

End Spawning.

(** ** The registry under a render tick *)

Section Registry.

Variable P : Platform.

(** The downward loop with its splices: the systems below [i] are
    ticked, last first; the systems from [i] on stay as they are. *)
Lemma tickSystems_app (todo rest : list ParticleSystem) (k : nat) :
  tickSystems P (length todo) (todo ++ rest) k
  = (fst (tickAll P todo k) ++ rest, snd (tickAll P todo k)).
Proof.
  revert rest k.
  induction todo as [|sys todo IH] using rev_ind; intros rest k.
  - reflexivity.
  - rewrite length_app, Nat.add_comm. simpl.
    rewrite <- app_assoc. simpl.
    rewrite (list_lookup_middle todo rest sys (length todo) eq_refl).
    rand_unfold.
    assert (Hall : forall l k0,
      tickAll P (l ++ [sys]) k0
      = (let (r, k1) := tickSystem P sys k0 in
         let (l', k2) := tickAll P l k1 in
         (match r with Some sys' => l' ++ [sys'] | None => l' end, k2))).
    { clear. induction l as [|a l IHl]; intros k0; simpl; rand_unfold.
      - destruct (tickSystem P sys k0) as [[s'|] k1]; reflexivity.
      - rewrite IHl. destruct (tickSystem P sys k0) as [[s'|] k1];
          destruct (tickAll P l k1) as [l' k2];
          destruct (tickSystem P a k2) as [[a'|] k3]; reflexivity. }
    rewrite Hall.
    destruct (tickSystem P sys k) as [[sys'|] k1].
    + replace (<[length todo:=sys']> (todo ++ sys :: rest))
        with (todo ++ sys' :: rest).
      2:{ rewrite insert_app_r_alt by lia.
          rewrite Nat.sub_diag. reflexivity. }
      rewrite IH. destruct (tickAll P todo k1) as [l' k2]. simpl.
      rewrite <- app_assoc. reflexivity.
    + replace (delete (length todo) (todo ++ sys :: rest))
        with (todo ++ rest).
      2:{ rewrite delete_middle. reflexivity. }
      rewrite IH. destruct (tickAll P todo k1) as [l' k2]. reflexivity.
Qed.

Lemma tickSystems_tickAll (l : list ParticleSystem) (k : nat) :
  tickSystems P (length l) l k = tickAll P l k.
Proof.
  rewrite <- (app_nil_r l) at 2. rewrite tickSystems_app.
  rewrite app_nil_r. destruct (tickAll P l k); reflexivity.
Qed.


(** Buffers keep their length over any number of ticks. *)
Lemma ticks_hasParticles (N : nat) (cursors : nat -> nat) (n : nat)
  (sys sys' : ParticleSystem) :
  hasParticles N sys -> ticks P cursors n sys = Some sys' ->
  hasParticles N sys'.
Proof.
  intros HN. revert sys'. induction n as [|n IH]; intros sys'; cbn [ticks].
  - intros [= <-]. exact HN.
  - destruct (ticks P cursors n sys) as [s|]; [|discriminate].
    intros Ht. specialize (IH s eq_refl).
    destruct (tickSystem_Some P s (cursors n) sys' Ht)
      as (H1 & H2 & H3 & H4 & _).
    destruct IH as (A & B & C & D).
    unfold hasParticles. rewrite H1, H2, H3, H4. auto.
Qed.

End Registry.

(** ** Every state comes to an end *)

Section Progress.

Variable P : Platform.









End Progress.

(** ** The shape cache *)

Section Cache.

Variable P : Platform.

(** The scan draws one random number for each point it emits. *)
Lemma scanImage_draws img scale k :
  snd (scanImage P img scale k)
  = (k + length (fst (scanImage P img scale k)))%nat.
Proof.
  unfold scanImage.
  apply (forLoop_invariant_draws
           (fun pts k' => k' = (k + length pts)%nat)); [|simpl; lia].
  intros y pts k1 H1.
  apply (forLoop_invariant_draws
           (fun pts k' => k' = (k + length pts)%nat)); [|exact H1].
  intros x pts' k2 H2. unfold scanPixel, random. rand_unfold.
  destruct (_ <? _)%Z; simpl; [|exact H2].
  rewrite length_app. simpl. lia.
Qed.

(** Every point of the scan is a pixel of the image at the scale
    of the request. *)
Lemma scanImage_scaled img scale k :
  Forall (scaledBy img scale) (fst (scanImage P img scale k)).
Proof.
  unfold scanImage.
  apply (forLoop_invariant_indexed
           (fun _ pts => Forall (scaledBy img scale) pts) _ 150 0%nat);
    [|constructor].
  intros y pts k1 Hy H1.
  apply (forLoop_invariant_indexed
           (fun _ pts => Forall (scaledBy img scale) pts) _ (width img)
           0%nat); [|exact H1].
  intros x pts' k2 Hx H2. unfold scanPixel, random. rand_unfold.
  destruct (_ <? _)%Z; simpl; [|exact H2].
  apply Forall_app. split; [exact H2|]. constructor; [|constructor].
  exists x, y. simpl. split; [lia|]. split; [lia|].
  rewrite !Qred_correct. split; reflexivity.
Qed.

(** The four ways a request for points is answered. *)
Lemma getPoints_cases cache text scale shapeType k :
  (exists cached,
      cache !! cacheKeyOf text shapeType = Some cached
      /\ getPointsFromTextCanvas P cache text scale shapeType k
         = (cached, cache, k))
  \/ (cache !! cacheKeyOf text shapeType = None
      /\ shapeType = Some "HEART"%string
      /\ getPointsFromTextCanvas P cache text scale shapeType k
         = (heartPoints P,
            <[cacheKeyOf text shapeType := heartPoints P]> cache, k))
  \/ (cache !! cacheKeyOf text shapeType = None
      /\ shapeType <> Some "HEART"%string
      /\ renderText P text = None
      /\ getPointsFromTextCanvas P cache text scale shapeType k
         = ([], cache, k))
  \/ (cache !! cacheKeyOf text shapeType = None
      /\ shapeType <> Some "HEART"%string
      /\ exists img,
           renderText P text = Some img
           /\ getPointsFromTextCanvas P cache text scale shapeType k
              = (fst (scanImage P img scale k),
                 <[cacheKeyOf text shapeType :=
                     fst (scanImage P img scale k)]> cache,
                 snd (scanImage P img scale k))).
Proof.
  unfold getPointsFromTextCanvas.
  destruct (cache !! cacheKeyOf text shapeType) as [cached|] eqn:Ec.
  { left. exists cached. split; reflexivity. }
  right. destruct (decide (shapeType = Some "HEART"%string)) as [Hs|Hs].
  { left. repeat split; assumption. }
  right. destruct (renderText P text) as [img|] eqn:Er.
  - right. split; [reflexivity|]. split; [exact Hs|]. exists img.
    split; [reflexivity|]. rand_unfold.
    destruct (scanImage P img scale k) as [pts k']. reflexivity.
  - left. repeat split; assumption.
Qed.

(** A text that is not in the cache is rendered and scanned. *)
Lemma getPoints_render cache text scale k img :
  cache !! text = None ->
  renderText P text = Some img ->
  getPointsFromTextCanvas P cache text scale None k
  = (fst (scanImage P img scale k),
     <[text := fst (scanImage P img scale k)]> cache,
     snd (scanImage P img scale k)).
Proof.
  intros Hc Hr. unfold getPointsFromTextCanvas, cacheKeyOf.
  rewrite Hc, Hr. destruct (decide _) as [Hs|_]; [discriminate Hs|].
  rand_unfold. destruct (scanImage P img scale k). reflexivity.
Qed.

(** A request answered once is answered the same way ever after,
    whatever scale is asked for. *)
Lemma getPoints_again cache text shapeType scale1 scale2 k1 k2 :
  let r1 := getPointsFromTextCanvas P cache text scale1 shapeType k1 in
  getPointsFromTextCanvas P (snd (fst r1)) text scale2 shapeType k2
  = (fst (fst r1), snd (fst r1), k2).
Proof.
  intros r1.
  destruct (getPoints_cases cache text scale1 shapeType k1)
    as [(cached & Hc & Hr)|[(Hc & Hs & Hr)|[(Hc & Hs & Ht & Hr)
       |(Hc & Hs & img & Ht & Hr)]]];
    subst r1; rewrite Hr; cbn [fst snd];
    unfold getPointsFromTextCanvas.
  - rewrite Hc. reflexivity.
  - rewrite lookup_insert_eq. reflexivity.
  - rewrite Hc. destruct (decide _); [contradiction|].
    rewrite Ht. reflexivity.
  - rewrite lookup_insert_eq. reflexivity.
Qed.

End Cache.

(** ** Invariants *)

#[global] Arguments heartPoints : simpl never.

Section Invariants.

Variable P : Platform.

Lemma heartPoints_length : length (heartPoints P) = 3000%nat.
Proof. unfold heartPoints. rewrite length_map, length_seq. reflexivity. Qed.

Lemma spawn_sameControls e text scale targetX targetY shapeType :
  sameControls e
    (fst (spawnRocketFirework P e text scale targetX targetY shapeType)).
Proof.
  destruct (getPointsFromTextCanvas P (textPointsCache e) text scale
              shapeType (randomDraws e)) as [[targets cache] k0] eqn:Eg.
  destruct (spawn_cases P e text scale targetX targetY shapeType
              targets cache k0 Eg)
    as [(_ & H)|[(_ & _ & k & H)|(_ & _ & k & b & speed & H & _)]];
    rewrite H; repeat split.
Qed.

(** A spawn keeps the registry and adds at most one system at its
    end, and that system is fresh. *)
Lemma spawn_systems e text scale targetX targetY shapeType :
  appended e
    (fst (spawnRocketFirework P e text scale targetX targetY shapeType)).
Proof.
  destruct (getPointsFromTextCanvas P (textPointsCache e) text scale
              shapeType (randomDraws e)) as [[targets cache] k0] eqn:Eg.
  destruct (spawn_cases P e text scale targetX targetY shapeType
              targets cache k0 Eg)
    as [(_ & H)|[(_ & _ & k & H)|(_ & _ & k & b & speed & H & Hp & _ & Hs)]];
    rewrite H; unfold appended; cbn [fst systems pushSystem setCacheAndDraws].
  - exists []. rewrite app_nil_r. repeat split; auto.
  - exists []. rewrite app_nil_r. repeat split; auto.
  - eexists [_]. split; [reflexivity|]. split; [simpl; lia|].
    constructor; [|constructor].
    split; [reflexivity|]. split; [reflexivity|]. split; [simpl; lra|].
    exists (length targets). exact Hp.
Qed.

Lemma appended_same e e' : systems e' = systems e -> appended e e'.
Proof.
  intros H. exists []. rewrite app_nil_r. repeat split; auto.
Qed.

Lemma spawn_invariant e text scale targetX targetY shapeType :
  heartKeyed text shapeType ->
  invariant P e ->
  invariant P
    (fst (spawnRocketFirework P e text scale targetX targetY shapeType)).
Proof.
  intros Hkey (Hidx & Hcam & Hheart).
  pose proof (spawn_sameControls e text scale targetX targetY shapeType)
    as (Hsc & _ & _ & _ & Hi & _).
  split; [congruence|]. split.
  { intros sc Hsc'. apply Hcam. congruence. }
  destruct (getPointsFromTextCanvas P (textPointsCache e) text scale
              shapeType (randomDraws e)) as [[targets cache] k0] eqn:Eg.
  assert (Hcache : forall pts, cache !! "HEART"%string = Some pts ->
                               pts = heartPoints P).
  { destruct (getPoints_cases P (textPointsCache e) text scale shapeType
                (randomDraws e))
      as [(cached & _ & Hr)|[(_ & Hs & Hr)
         |[(_ & _ & _ & Hr)|(_ & Hs & img & _ & Hr)]]];
      rewrite Eg in Hr;
      destruct (triple_eq _ _ _ _ _ _ Hr) as (_ & Hc & _);
      subst cache; try exact Hheart.
    - intros pts. rewrite Hs. cbn [cacheKeyOf String.eqb Ascii.eqb Bool.eqb].
      rewrite lookup_insert_eq. intros [= <-]. reflexivity.
    - intros pts Hl.
      destruct (decide (cacheKeyOf text shapeType = "HEART"%string))
        as [Hk|Hk].
      + exfalso. apply Hs. apply Hkey. exact Hk.
      + rewrite lookup_insert_ne in Hl by exact Hk. apply Hheart. exact Hl. }
  destruct (spawn_cases P e text scale targetX targetY shapeType
              targets cache k0 Eg)
    as [(_ & H)|[(_ & _ & k & H)|(_ & _ & k & b & speed & H & _)]];
    rewrite H; exact Hcache.
Qed.

(** The zoom keeps the camera between 10 and 120. *)
Lemma zoom_range e z :
  10 <= z /\ z <= 120 ->
  10 <= fst (zoom e z) /\ fst (zoom e z) <= 120.
Proof.
  intros [Hlo Hhi]. unfold zoom.
  destruct (isHandDetected e); [|simpl; split; assumption].
  destruct (handGesture e); simpl; try (split; assumption);
    rewrite Qred_correct.
  - destruct (Q.max_spec 10 (z - 0.2)) as [[H ->]|[H ->]]; lra.
  - destruct (Q.min_spec 120 (z + 0.2)) as [[H ->]|[H ->]]; lra.
Qed.

(** What a render tick does to the scene, and that it touches
    nothing but the scene, the action label, the registry and the
    count of random draws. *)
Lemma animate_scene e sc :
  scene e = Some sc ->
  scene (animate P e)
  = Some {| cameraZ := fst (zoom e (cameraZ sc));
            nebulaRotation := Qred (nebulaRotation sc + 0.0002);
            cursor :=
              {| cursorPosition :=
                   interactPos P (mouseX e) (mouseY e)
                     (fst (zoom e (cameraZ sc)));
                 cursorVisible := isHandDetected e;
                 cursorColor :=
                   if isHandDetected e
                   then (if isPaused e then 0xff0000 else 0x00ffff)%Z
                   else cursorColor (cursor sc) |};
            rendered := S (rendered sc) |}
  /\ currentAction (animate P e) = snd (zoom e (cameraZ sc))
  /\ textPointsCache (animate P e) = textPointsCache e
  /\ currentPaletteIndex (animate P e) = currentPaletteIndex e
  /\ lastTriggerTime (animate P e) = lastTriggerTime e
  /\ isPaused (animate P e) = isPaused e
  /\ textLoops (animate P e) = textLoops e
  /\ finaleTimeouts (animate P e) = finaleTimeouts e.
Proof.
  intros Hsc. unfold animate. rewrite Hsc.
  destruct (zoom e (cameraZ sc)) as [z action].
  destruct (isPaused e) eqn:Ep.
  - simpl. rewrite Ep. repeat split.
  - destruct (tickSystems _ _ _ _) as [l k]. simpl. rewrite Ep.
    repeat split.
Qed.

Lemma animate_invariant e : invariant P e -> invariant P (animate P e).
Proof.
  intros (Hidx & Hcam & Hheart).
  destruct (scene e) as [sc|] eqn:Hsc.
  - destruct (animate_scene e sc Hsc)
      as (Hs & _ & Hc & Hi & _).
    split; [congruence|]. split.
    + intros sc' Hsc'. rewrite Hs in Hsc'. injection Hsc' as <-. simpl.
      apply zoom_range. apply Hcam. exact Hsc.
    + unfold heartCached. rewrite Hc. exact Hheart.
  - unfold animate. rewrite Hsc. exact (conj Hidx (conj Hcam Hheart)).
Qed.

Lemma init_invariant e : invariant P e -> invariant P (init P e).
Proof.
  intros (Hidx & Hcam & Hheart). unfold init. apply animate_invariant.
  split; [exact Hidx|]. split; [|exact Hheart].
  intros sc [= <-]. simpl. split; discriminate.
Qed.

Lemma heartKeyed_special type :
  heartKeyed ("SHAPE_" ++ shapeName type) (Some (shapeName type)).
Proof. destruct type; intros H; [reflexivity|discriminate]. Qed.

Lemma heartKeyed_sequence index :
  heartKeyed (default EmptyString (sequence !! index)) None.
Proof.
  unfold heartKeyed, sequence.
  destruct index as [|[|[|[|?]]]]; simpl; discriminate.
Qed.

Lemma heartKeyed_texts index :
  heartKeyed (default EmptyString (texts !! index)) None.
Proof.
  unfold heartKeyed, texts.
  destruct index as [|[|[|[|[|[|[|?]]]]]]]; simpl; discriminate.
Qed.

Lemma updateHand_invariant e x y gesture isPresent now :
  invariant P e -> invariant P (updateHand P e x y gesture isPresent now).
Proof.
  intros Hinv. unfold updateHand.
  destruct (scene e) as [sc|] eqn:Hsc; [|exact Hinv].
  assert (Hh : invariant P (setHand e x y gesture isPresent)).
  { exact Hinv. }
  destruct isPresent; simpl; [|exact Hh].
  destruct gesture; try exact Hh.
  - destruct (_ <? _)%Z; [|exact Hh].
    pose proof (spawn_invariant (setHand e x y V_SIGN true)
                  ("SHAPE_" ++ shapeName HEART) 1 0 0
                  (Some (shapeName HEART)) (heartKeyed_special HEART) Hh)
      as Hsp.
    unfold spawnSpecialShape.
    destruct (spawnRocketFirework _ _ _ _ _ _ _) as [e1 [|]];
      exact Hsp.
  - destruct (_ <? _)%Z; exact Hh.
Qed.

Lemma textLoopTop_invariant e index :
  invariant P e -> invariant P (fst (textLoopTop P e index)).
Proof.
  intros Hinv. unfold textLoopTop, textLoopGate, textLoopSpawn.
  destruct (mode e); [exact Hinv|].
  destruct (isPaused e); [exact Hinv|].
  match goal with |- context [spawnRocketFirework P e ?t ?s 0 0 None] =>
    pose proof (spawn_invariant e t s 0 0 None
                  (heartKeyed_sequence index) Hinv) as Hsp;
    destruct (spawnRocketFirework P e t s 0 0 None) as [e1 [|]]
  end; exact Hsp.
Qed.

Lemma wakeTextLoop_invariant e l :
  invariant P e -> invariant P (fst (wakeTextLoop P e l)).
Proof.
  intros Hinv. destruct l as [index|index elapsed]; simpl.
  - pose proof (textLoopTop_invariant e index Hinv) as H.
    unfold textLoopTop in H. unfold textLoopGate in *.
    destruct (isPaused e); [exact Hinv|].
    unfold textLoopSpawn in *.
    match goal with |- context [spawnRocketFirework P e ?t ?s 0 0 None] =>
      pose proof (spawn_invariant e t s 0 0 None
                    (heartKeyed_sequence index) Hinv) as Hsp;
      destruct (spawnRocketFirework P e t s 0 0 None) as [e1 [|]]
    end; exact Hsp.
  - destruct (_ <? _)%Z; [exact Hinv|].
    apply textLoopTop_invariant. exact Hinv.
Qed.

Lemma step_invariant e ev : invariant P e -> invariant P (step P e ev).
Proof.
  intros Hinv. destruct ev as [| |x y g p now|type|b| |k|k]; simpl.
  - apply init_invariant. exact Hinv.
  - unfold startShow.
    match goal with |- context [textLoopTop P ?e0 0] =>
      assert (H0 : invariant P e0) by exact Hinv;
      pose proof (textLoopTop_invariant e0 0 H0) as Ht;
      destruct (textLoopTop P e0 0) as [e1 [l|]]
    end; exact Ht.
  - apply updateHand_invariant. exact Hinv.
  - apply spawn_invariant; [apply heartKeyed_special|exact Hinv].
  - exact Hinv.
  - apply animate_invariant. exact Hinv.
  - destruct (finaleTimeouts e !! k); [|exact Hinv].
    unfold spawnRandomFirework.
    destruct (random P _) as [r1 k1]. destruct (random P k1) as [r2 k2].
    destruct (random P k2) as [r3 k3].
    apply spawn_invariant; [apply heartKeyed_texts|exact Hinv].
  - destruct (textLoops e !! k) as [l|]; [|exact Hinv].
    pose proof (wakeTextLoop_invariant e l Hinv) as Hw.
    destruct (wakeTextLoop P e l) as [e1 [l'|]]; exact Hw.
Qed.

Lemma initial_invariant : invariant P initial.
Proof.
  split; [reflexivity|]. split.
  - intros sc [=].
  - intros pts [=].
Qed.

(** The invariant holds whatever has happened to the service. *)
Lemma run_invariant evs : invariant P (run P evs).
Proof.
  unfold run. generalize initial_invariant. generalize initial.
  induction evs as [|ev evs IH]; intros e He; simpl.
  - exact He.
  - apply IH. apply step_invariant. exact He.
Qed.

(** A render tick that is not paused ticks every system once, last
    system first; a paused one leaves the registry alone. *)
Lemma animate_systems e :
  systems (animate P e)
  = match scene e with
    | Some _ =>
        if isPaused e then systems e
        else fst (tickAll P (systems e) (randomDraws e))
    | None => systems e
    end.
Proof.
  unfold animate. destruct (scene e) as [sc|]; [|reflexivity].
  destruct (zoom e (cameraZ sc)) as [z action].
  destruct (isPaused e); [reflexivity|].
  rewrite tickSystems_tickAll.
  destruct (tickAll P (systems e) (randomDraws e)) as [l k']. reflexivity.
Qed.

Lemma textLoopGate_appended e index :
  appended e (fst (textLoopGate P e index)).
Proof.
  unfold textLoopGate, textLoopSpawn.
  destruct (isPaused e); [apply appended_same; reflexivity|].
  match goal with |- context [spawnRocketFirework P e ?t ?s 0 0 None] =>
    pose proof (spawn_systems e t s 0 0 None) as Hsp;
    destruct (spawnRocketFirework P e t s 0 0 None) as [e1 [|]]
  end; exact Hsp.
Qed.

Lemma textLoopTop_appended e index :
  appended e (fst (textLoopTop P e index)).
Proof.
  unfold textLoopTop.
  destruct (mode e); [apply appended_same; reflexivity|].
  apply textLoopGate_appended.
Qed.

(** An event either adds at most one fresh system at the end of the
    registry, or is a render tick that ticks every system once. *)
Lemma step_systems e ev :
  appended e (step P e ev)
  \/ systems (step P e ev) = fst (tickAll P (systems e) (randomDraws e)).
Proof.
  destruct ev as [| |x y g p now|type|b| |k|k]; cbn [step].
  - unfold init.
    match goal with |- context [animate P ?e0] =>
      pose proof (animate_systems e0) as Ha
    end.
    cbn [scene isPaused systems randomDraws setCurrentAction setScene] in Ha.
    destruct (isPaused e); [left; apply appended_same|right]; exact Ha.
  - left. unfold startShow.
    match goal with |- context [textLoopTop P ?e0 0] =>
      pose proof (textLoopTop_appended e0 0) as Ht;
      destruct (textLoopTop P e0 0) as [e1 [l|]]
    end; exact Ht.
  - left. unfold updateHand.
    destruct (scene e); [|apply appended_same; reflexivity].
    destruct p; cbn [negb]; [|apply appended_same; reflexivity].
    destruct g; try (apply appended_same; reflexivity).
    + destruct (_ <? _)%Z; [|apply appended_same; reflexivity].
      pose proof (spawn_systems (setHand e x y V_SIGN true)
                    ("SHAPE_" ++ shapeName HEART) 1 0 0
                    (Some (shapeName HEART))) as Hsp.
      unfold spawnSpecialShape.
      destruct (spawnRocketFirework _ _ _ _ _ _ _) as [e1 [|]]; exact Hsp.
    + destruct (_ <? _)%Z; apply appended_same; reflexivity.
  - left. apply spawn_systems.
  - left. apply appended_same. reflexivity.
  - pose proof (animate_systems e) as Ha.
    destruct (scene e); [|left; apply appended_same; exact Ha].
    destruct (isPaused e); [left; apply appended_same|right]; exact Ha.
  - left. destruct (finaleTimeouts e !! k);
      [|apply appended_same; reflexivity].
    unfold spawnRandomFirework.
    destruct (random P _) as [r1 k1]. destruct (random P k1) as [r2 k2].
    destruct (random P k2) as [r3 k3].
    match goal with |- appended e (fst (spawnRocketFirework P ?e0 ?t ?s ?a ?b ?c)) =>
      exact (spawn_systems e0 t s a b c)
    end.
  - left. destruct (textLoops e !! k) as [l|];
      [|apply appended_same; reflexivity].
    assert (Hw : appended e (fst (wakeTextLoop P e l))).
    { destruct l as [index|index elapsed]; cbn [wakeTextLoop].
      - apply textLoopGate_appended.
      - destruct (_ <? _)%Z; [apply appended_same; reflexivity|].
        apply textLoopTop_appended. }
    destruct (wakeTextLoop P e l) as [e1 [l'|]]; exact Hw.
Qed.

(** Ticking a registry keeps what every tick of a system keeps. *)
Lemma tickAll_Forall (Q : ParticleSystem -> Prop) :
  (forall sys k sys', Q sys -> fst (tickSystem P sys k) = Some sys' -> Q sys') ->
  forall l k, Forall Q l -> Forall Q (fst (tickAll P l k)).
Proof.
  intros Hstep. induction l as [|sys l IH]; intros k Hl; cbn [tickAll].
  - constructor.
  - rand_unfold. apply Forall_cons in Hl. destruct Hl as [Hs Hl].
    specialize (IH k Hl). destruct (tickAll P l k) as [l' k1].
    destruct (tickSystem P sys k1) as [[sys'|] k2] eqn:Et; cbn [fst] in *.
    + constructor; [|exact IH]. apply (Hstep sys k1 sys' Hs).
      rewrite Et. reflexivity.
    + exact IH.
Qed.

(** Whatever has happened to the service, every registered system has
    buffers of three numbers per particle. *)
Lemma registry_wellformed evs :
  Forall (fun sys => exists N, hasParticles N sys) (systems (run P evs)).
Proof.
  unfold run.
  assert (H0 : Forall (fun sys => exists N, hasParticles N sys)
                 (systems initial)) by constructor.
  revert H0. generalize initial.
  induction evs as [|ev evs IH]; intros e He; cbn [fold_left].
  - exact He.
  - apply IH. destruct (step_systems e ev) as [(new & Hn & _ & Hf)|Ht].
    + rewrite Hn. apply Forall_app. split; [exact He|].
      eapply Forall_impl; [exact Hf|]. intros sys (_ & _ & _ & HN). exact HN.
    + rewrite Ht. apply tickAll_Forall; [|exact He].
      intros sys k sys' [N HN] Hs. exists N.
      exact (ticks_hasParticles P N (fun _ => k) 1 sys sys' HN Hs).
Qed.

End Invariants.

(** ** The life cycle *)


(** C3. The system that a spawn adds to the registry has as many
    particles as the resolved target shape has points: its four
    buffers hold three numbers per point, and so do the buffers of
    the system after any number of ticks. *)
Theorem particle_count (P : Platform) (e : EngineState) (text : string)
  (scale targetX targetY : Q) (shapeType : option string)
  (sys sys' : ParticleSystem) (cursors : nat -> nat) (n : nat) :
  systems (fst (spawnRocketFirework P e text scale targetX targetY shapeType))
  = systems e ++ [sys] ->
  ticks P cursors n sys = Some sys' ->
  let targets :=
    fst (fst (getPointsFromTextCanvas P (textPointsCache e) text scale
                shapeType (randomDraws e))) in
  hasParticles (length targets) sys /\ hasParticles (length targets) sys'.
Proof.
  intros Hsys Hticks targets.
  assert (H : hasParticles (length targets) sys).
  { subst targets.
    destruct (getPointsFromTextCanvas P (textPointsCache e) text scale
                shapeType (randomDraws e)) as [[targets cache] k0] eqn:Eg.
    destruct (spawn_cases P e text scale targetX targetY shapeType
                targets cache k0 Eg)
      as [(_ & H)|[(_ & _ & k1 & H)|(_ & _ & k1 & b & speed & H & Hp & _)]];
      rewrite H in Hsys; simpl in Hsys.
    - rewrite <- (app_nil_r (systems e)) in Hsys at 1.
      apply app_inv_head in Hsys. discriminate.
    - rewrite <- (app_nil_r (systems e)) in Hsys at 1.
      apply app_inv_head in Hsys. discriminate.
    - apply app_inv_head in Hsys. injection Hsys as <-. exact Hp. }
  split; [exact H|].
  exact (ticks_hasParticles P _ cursors n sys sys' H Hticks).
Qed.

(** ** The shape cache and the empty shape *)

(** C2, as the code has it. The cache is keyed by the shape type when
    one is given and by the text otherwise; the scale is not part of
    the key. A request repeated with the same text and shape type is
    answered with the identical cloud, from a cache that it leaves as
    it is and without a random draw, whatever scale it asks for. The
    cloud of a request is an entry of the cache, the heart curve,
    empty, or the scan of the rendered text at the scale of that
    request. *)
Theorem cache_keyed_by_text (P : Platform)
  (cache : gmap string (list Vector3)) (text : string)
  (shapeType : option string) (scale1 scale2 : Q) (k1 k2 : nat) :
  let r1 := getPointsFromTextCanvas P cache text scale1 shapeType k1 in
  let key := cacheKeyOf text shapeType in
  getPointsFromTextCanvas P (snd (fst r1)) text scale2 shapeType k2
  = (fst (fst r1), snd (fst r1), k2)
  /\ (snd (fst r1) = cache \/ snd (fst r1) = <[key := fst (fst r1)]> cache)
  /\ (cache !! key = Some (fst (fst r1))
      \/ fst (fst r1) = heartPoints P
      \/ fst (fst r1) = []
      \/ exists img,
           renderText P text = Some img
           /\ fst (fst r1) = fst (scanImage P img scale1 k1)
           /\ Forall (scaledBy img scale1) (fst (fst r1))).
Proof.
  intros r1 key. split; [apply getPoints_again|].
  destruct (getPoints_cases P cache text scale1 shapeType k1)
    as [(cached & Hc & Hr)|[(Hc & Hs & Hr)|[(Hc & Hs & Ht & Hr)
       |(Hc & Hs & img & Ht & Hr)]]];
    subst r1 key; rewrite Hr; cbn [fst snd].
  - split; [left; reflexivity|]. left. exact Hc.
  - split; [right; reflexivity|]. right. left. reflexivity.
  - split; [left; reflexivity|]. right. right. left. reflexivity.
  - split; [right; reflexivity|]. right. right. right. exists img.
    split; [exact Ht|]. split; [reflexivity|]. apply scanImage_scaled.
Qed.

(** C2 fails as stated: on the demo platform a request for "2026" at
    scale 0.35 that follows one at scale 0.25 finds the cache with its
    single entry and is handed the cloud of the first request, whose
    points are pixels at scale 0.25 and not at scale 0.35. *)
Lemma scale_not_in_cache_key :
  let r1 :=
    getPointsFromTextCanvas Demo.platform ∅ "2026" 0.25 None 0%nat in
  let r2 :=
    getPointsFromTextCanvas Demo.platform (snd (fst r1)) "2026" 0.35 None
      (snd r1) in
  base.size (snd (fst r2)) = 1%nat
  /\ fst (fst r2) = fst (fst r1)
  /\ Forall (scaledBy Demo.image 0.25) (fst (fst r2))
  /\ ~ Forall (scaledBy Demo.image 0.35) (fst (fst r2)).
Proof.
  intros r1 r2.
  assert (H2 : r2 = (fst (fst r1), snd (fst r1), snd r1)).
  { apply (getPoints_again Demo.platform). }
  assert (H1 : r1 = (fst (scanImage Demo.platform Demo.image 0.25 0%nat),
                     <["2026"%string :=
                         fst (scanImage Demo.platform Demo.image 0.25 0%nat)]> ∅,
                     snd (scanImage Demo.platform Demo.image 0.25 0%nat))).
  { subst r1. apply getPoints_render; [apply lookup_empty|reflexivity]. }
  rewrite H2. cbn [fst snd]. rewrite H1. cbn [fst snd].
  split; [rewrite insert_empty; apply map_size_singleton|].
  split; [reflexivity|].
  split; [apply scanImage_scaled|].
  intros Hall.
  assert (Hhd : exists p rest,
             fst (scanImage Demo.platform Demo.image 0.25 0%nat) = p :: rest
             /\ vx p = - (1 # 4)).
  { eexists _, _. split; [vm_compute; reflexivity|reflexivity]. }
  destruct Hhd as (p & rest & Hp & Hx). rewrite Hp in Hall.
  apply Forall_cons in Hall. destruct Hall as [(x & y & Hxw & _ & Hvx & _) _].
  rewrite Hx in Hvx. change (width Demo.image) with 2%nat in Hxw, Hvx.
  destruct x as [|[|x]]; [| |lia]; vm_compute in Hvx; discriminate.
Qed.

(** C8. When the resolved target shape has no points, the spawn
    returns normally and creates no system: the registry, the count
    of random draws and everything else but the cache are as before,
    and the cache has at most gained the empty shape under the key of
    the request. *)
Theorem empty_shape_noop (P : Platform) (e : EngineState) (text : string)
  (scale targetX targetY : Q) (shapeType : option string) :
  fst (fst (getPointsFromTextCanvas P (textPointsCache e) text scale
              shapeType (randomDraws e))) = [] ->
  let r := spawnRocketFirework P e text scale targetX targetY shapeType in
  snd r = Returned
  /\ systems (fst r) = systems e
  /\ randomDraws (fst r) = randomDraws e
  /\ sameControls e (fst r)
  /\ (textPointsCache (fst r) = textPointsCache e
      \/ textPointsCache (fst r)
         = <[cacheKeyOf text shapeType := []]> (textPointsCache e)).
Proof.
  intros Hempty r. subst r.
  pose proof (spawn_sameControls P e text scale targetX targetY shapeType)
    as Hsame.
  destruct (getPoints_cases P (textPointsCache e) text scale shapeType
              (randomDraws e))
    as [(cached & _ & Hr)|[(_ & _ & Hr)|[(_ & _ & _ & Hr)
       |(_ & _ & img & _ & Hr)]]];
    rewrite Hr, fst3 in Hempty.
  - subst cached.
    destruct (spawn_cases P e text scale targetX targetY shapeType _ _ _ Hr)
      as [(_ & H)|[(Hne & _)|(Hne & _)]]; [|contradiction|contradiction].
    rewrite H in Hsame |- *.
    cbn [fst snd systems randomDraws textPointsCache setCacheAndDraws]
      in Hsame |- *.
    split; [reflexivity|]. split; [reflexivity|]. split; [reflexivity|].
    split; [exact Hsame|left; reflexivity].
  - exfalso. pose proof (heartPoints_length P) as Hl.
    rewrite Hempty in Hl. discriminate Hl.
  - destruct (spawn_cases P e text scale targetX targetY shapeType _ _ _ Hr)
      as [(_ & H)|[(Hne & _)|(Hne & _)]]; [|contradiction|contradiction].
    rewrite H in Hsame |- *.
    cbn [fst snd systems randomDraws textPointsCache setCacheAndDraws]
      in Hsame |- *.
    split; [reflexivity|]. split; [reflexivity|]. split; [reflexivity|].
    split; [exact Hsame|left; reflexivity].
  - pose proof (scanImage_draws P img scale (randomDraws e)) as Hd.
    rewrite Hempty in Hr, Hd. cbn [length] in Hd. rewrite Nat.add_0_r in Hd.
    rewrite Hd in Hr.
    destruct (spawn_cases P e text scale targetX targetY shapeType _ _ _ Hr)
      as [(_ & H)|[(Hne & _)|(Hne & _)]]; [|contradiction|contradiction].
    rewrite H in Hsame |- *.
    cbn [fst snd systems randomDraws textPointsCache setCacheAndDraws]
      in Hsame |- *.
    split; [reflexivity|]. split; [reflexivity|]. split; [reflexivity|].
    split; [exact Hsame|right; reflexivity].
Qed.

(** ** The palette *)

(** C10. Whatever has happened to the service, the palette index is
    1 and the theme label is that of the Orange palette, and a system
    that a spawn adds to the registry has each of its particles in
    one of the five colors of that palette. *)
Theorem palette_constant (P : Platform) (evs : list Event) (text : string)
  (scale targetX targetY : Q) (shapeType : option string) :
  let e := run P evs in
  currentPaletteIndex e = 1%nat
  /\ currentTheme e = "橙 (Orange)"%string
  /\ exists new,
       systems (fst (spawnRocketFirework P e text scale targetX targetY
                       shapeType)) = systems e ++ new
       /\ Forall (fun sys =>
                    exists N,
                      hasParticles N sys
                      /\ colorsFrom P
                           [0xFF7F00; 0xFFA500; 0xFFD700; 0xFFFFFF; 0xFF4500]%Z
                           N (colors sys)) new.
Proof.
  intros e. destruct (run_invariant P evs) as (Hidx & _). fold e in Hidx.
  split; [exact Hidx|]. split.
  { unfold currentTheme. rewrite Hidx. reflexivity. }
  destruct (getPointsFromTextCanvas P (textPointsCache e) text scale
              shapeType (randomDraws e)) as [[targets cache] k0] eqn:Eg.
  destruct (spawn_cases P e text scale targetX targetY shapeType
              targets cache k0 Eg)
    as [(_ & H)|[(_ & _ & k & H)
       |(_ & _ & k & b & speed & H & Hp & Hc & _)]];
    rewrite H; cbn [fst systems pushSystem setCacheAndDraws].
  - exists []. split; [symmetry; apply app_nil_r|constructor].
  - exists []. split; [symmetry; apply app_nil_r|constructor].
  - eexists [_]. split; [reflexivity|]. constructor; [|constructor].
    exists (length targets). split; [exact Hp|].
    rewrite Hidx in Hc. apply Hc. discriminate.
Qed.

(** ** The zoom *)

(** C6. Whatever has happened to the service, the camera distance is
    between 10 and 120; and the next render tick, when a hand is
    detected, takes 0.2 off it for PINCH, not going below 10, and
    adds 0.2 to it for OPEN_PALM, not going above 120, and leaves it
    as it is otherwise. *)
Theorem zoom_bounds (P : Platform) (evs : list Event) (sc : Scene) :
  scene (run P evs) = Some sc ->
  (10 <= cameraZ sc /\ cameraZ sc <= 120)
  /\ exists sc',
       scene (step P (run P evs) Frame) = Some sc'
       /\ cameraZ sc'
          == if isHandDetected (run P evs) then
               match handGesture (run P evs) with
               | PINCH => Qmax 10 (cameraZ sc - 0.2)
               | OPEN_PALM => Qmin 120 (cameraZ sc + 0.2)
               | _ => cameraZ sc
               end
             else cameraZ sc.
Proof.
  intros Hsc. destruct (run_invariant P evs) as (_ & Hcam & _).
  split; [exact (Hcam sc Hsc)|].
  destruct (animate_scene P (run P evs) sc Hsc) as (Hs & _).
  eexists. split; [exact Hs|]. cbn [cameraZ]. unfold zoom.
  destruct (isHandDetected (run P evs)); [|reflexivity].
  destruct (handGesture (run P evs)); cbn [fst];
    try reflexivity; apply Qred_correct.
Qed.

(** ** The interaction mapper *)

Section Mapper.

Variable P : Platform.

(** With the scene made and the cache sound, the heart is spawned:
    a system of 3000 particles at the end of the registry. *)
Lemma heart_spawn e :
  invariant P e -> is_Some (scene e) ->
  exists cache k b speed,
    spawnSpecialShape P e HEART
    = (pushSystem (setCacheAndDraws e cache k) (newSystem b 0 0 speed),
       Returned)
    /\ hasParticles 3000 (newSystem b 0 0 speed).
Proof.
  intros (_ & _ & Hheart) Hscene. unfold spawnSpecialShape.
  destruct (getPointsFromTextCanvas P (textPointsCache e)
              ("SHAPE_" ++ shapeName HEART) 1 (Some (shapeName HEART))
              (randomDraws e)) as [[targets cache] k0] eqn:Eg.
  assert (Hlen : length targets = 3000%nat).
  { assert (Hkey : cacheKeyOf ("SHAPE_" ++ shapeName HEART)
                     (Some (shapeName HEART)) = "HEART"%string)
      by reflexivity.
    destruct (getPoints_cases P (textPointsCache e)
                ("SHAPE_" ++ shapeName HEART) 1 (Some (shapeName HEART))
                (randomDraws e))
      as [(cached & Hc & Hr)|[(_ & _ & Hr)|[(_ & Hs & _)|(_ & Hs & _)]]];
      try (exfalso; apply Hs; reflexivity);
      rewrite Eg in Hr;
      destruct (triple_eq _ _ _ _ _ _ Hr) as (Hpts & _ & _);
      rewrite Hpts.
    - rewrite Hkey in Hc. rewrite (Hheart cached Hc).
      apply heartPoints_length.
    - apply heartPoints_length. }
  destruct (spawn_cases P e ("SHAPE_" ++ shapeName HEART) 1 0 0
              (Some (shapeName HEART)) targets cache k0 Eg)
    as [(He & _)|[(_ & Hn & _)|(_ & _ & k & b & speed & H & Hp & _)]].
  - exfalso. rewrite He in Hlen. discriminate Hlen.
  - exfalso. rewrite Hn in Hscene. destruct Hscene as [? [=]].
  - exists cache, k, b, speed. split; [exact H|].
    rewrite Hlen in Hp. exact Hp.
Qed.

(** A V sign past the cooldown spawns the heart and restarts the
    cooldown. *)
Lemma updateHand_V_fires e x y now :
  invariant P e -> is_Some (scene e) ->
  (1500 < now - lastTriggerTime e)%Z ->
  let e' := updateHand P e x y V_SIGN true now in
  (exists sys, systems e' = systems e ++ [sys] /\ hasParticles 3000 sys)
  /\ lastTriggerTime e' = now
  /\ scene e' = scene e
  /\ finaleTimeouts e' = finaleTimeouts e.
Proof.
  intros Hinv Hscene Hnow e'. subst e'. unfold updateHand.
  destruct (scene e) as [sc|] eqn:Hsc; [|destruct Hscene as [? [=]]].
  cbn [negb].
  change (lastTriggerTime (setHand e x y V_SIGN true))
    with (lastTriggerTime e).
  apply Z.ltb_lt in Hnow. rewrite Hnow.
  destruct (heart_spawn (setHand e x y V_SIGN true))
    as (cache & k & b & speed & H & Hp).
  { exact Hinv. }
  { cbn [scene setHand]. rewrite Hsc. eauto. }
  rewrite H. cbn. split; [eauto|]. split; [reflexivity|].
  split; [exact Hsc|reflexivity].
Qed.

(** A V sign within the cooldown spawns nothing and leaves the
    cooldown running. *)
Lemma updateHand_V_blocked e x y now :
  (now - lastTriggerTime e <= 1500)%Z ->
  let e' := updateHand P e x y V_SIGN true now in
  systems e' = systems e
  /\ lastTriggerTime e' = lastTriggerTime e
  /\ scene e' = scene e
  /\ finaleTimeouts e' = finaleTimeouts e.
Proof.
  intros Hnow e'. subst e'. unfold updateHand.
  destruct (scene e) as [sc|] eqn:Hsc; [|rewrite Hsc; repeat split].
  cbn [negb].
  change (lastTriggerTime (setHand e x y V_SIGN true))
    with (lastTriggerTime e).
  apply Z.ltb_ge in Hnow. rewrite Hnow. cbn. rewrite Hsc. repeat split.
Qed.

(** An OK sign past its cooldown schedules the finale and restarts
    the same cooldown. *)
Lemma updateHand_OK_fires e x y now :
  is_Some (scene e) ->
  (3000 < now - lastTriggerTime e)%Z ->
  let e' := updateHand P e x y OK_SIGN true now in
  systems e' = systems e
  /\ lastTriggerTime e' = now
  /\ scene e' = scene e
  /\ finaleTimeouts e'
     = finaleTimeouts e ++ [0; 200; 400; 600; 800; 1000]%Z.
Proof.
  intros Hscene Hnow e'. subst e'. unfold updateHand.
  destruct (scene e) as [sc|] eqn:Hsc; [|destruct Hscene as [? [=]]].
  cbn [negb].
  change (lastTriggerTime (setHand e x y OK_SIGN true))
    with (lastTriggerTime e).
  apply Z.ltb_lt in Hnow. rewrite Hnow. cbn. rewrite Hsc. repeat split.
Qed.

End Mapper.

(** C4. One timestamp serves every discrete trigger. On a service
    that has been initialised, a V sign past the cooldown spawns one
    heart of 3000 particles and sets the timestamp; a second V sign
    no more than 1500 ms later spawns nothing and leaves the
    timestamp; a third more than 1500 ms after the first spawns a
    second heart. An OK sign that fires after the first V sign sets
    the same timestamp, and a V sign no more than 1500 ms after it
    spawns nothing, however long ago the first V sign was. *)
Theorem shared_cooldown (P : Platform) (evs : list Event) (x y : Q)
  (t1 t2 t3 tok tv : Z) :
  let e := run P evs in
  is_Some (scene e) ->
  (1500 < t1 - lastTriggerTime e)%Z ->
  (t2 - t1 <= 1500)%Z ->
  (1500 < t3 - t1)%Z ->
  (3000 < tok - t1)%Z ->
  (tv - tok <= 1500)%Z ->
  let e1 := updateHand P e x y V_SIGN true t1 in
  let e2 := updateHand P e1 x y V_SIGN true t2 in
  let e3 := updateHand P e2 x y V_SIGN true t3 in
  let eo := updateHand P e1 x y OK_SIGN true tok in
  let ev := updateHand P eo x y V_SIGN true tv in
  ((exists sys, systems e1 = systems e ++ [sys] /\ hasParticles 3000 sys)
   /\ lastTriggerTime e1 = t1)
  /\ (systems e2 = systems e1 /\ lastTriggerTime e2 = t1)
  /\ ((exists sys, systems e3 = systems e2 ++ [sys] /\ hasParticles 3000 sys)
      /\ lastTriggerTime e3 = t3)
  /\ (systems eo = systems e1 /\ lastTriggerTime eo = tok
      /\ finaleTimeouts eo
         = finaleTimeouts e ++ [0; 200; 400; 600; 800; 1000]%Z)
  /\ (systems ev = systems eo /\ lastTriggerTime ev = tok).
Proof.
  intros e Hscene H1 H2 H3 Hok Hv e1 e2 e3 eo ev.
  pose proof (run_invariant P evs) as Hinv. fold e in Hinv.
  destruct (updateHand_V_fires P e x y t1 Hinv Hscene H1)
    as (Hs1 & Ht1 & Hsc1 & Hf1). fold e1 in Hs1, Ht1, Hsc1, Hf1.
  assert (Hinv1 : invariant P e1) by (apply updateHand_invariant; exact Hinv).
  assert (Hscene1 : is_Some (scene e1)) by (rewrite Hsc1; exact Hscene).
  destruct (updateHand_V_blocked P e1 x y t2)
    as (Hs2 & Ht2 & Hsc2 & _). { rewrite Ht1. exact H2. }
  fold e2 in Hs2, Ht2, Hsc2.
  assert (Hinv2 : invariant P e2) by (apply updateHand_invariant; exact Hinv1).
  destruct (updateHand_V_fires P e2 x y t3 Hinv2)
    as (Hs3 & Ht3 & _).
  { rewrite Hsc2. exact Hscene1. } { rewrite Ht2, Ht1. exact H3. }
  fold e3 in Hs3, Ht3.
  destruct (updateHand_OK_fires P e1 x y tok Hscene1)
    as (Hso & Hto & Hsco & Hfo). { rewrite Ht1. exact Hok. }
  fold eo in Hso, Hto, Hsco, Hfo.
  destruct (updateHand_V_blocked P eo x y tv) as (Hsv & Htv & _).
  { rewrite Hto. exact Hv. }
  fold ev in Hsv, Htv.
  split; [split; assumption|]. split; [split; congruence|].
  split; [split; assumption|]. split; [|split; congruence].
  split; [exact Hso|]. split; [exact Hto|]. rewrite Hfo, Hf1. reflexivity.
Qed.

(** ** Pause *)




(** ** The absent hand *)



(** ** The theorems on the demo platform *)

(** The system without particles is a rocket for 60 ticks, explodes
    for 38, weaves for 151, fades for 25 and is gone. *)
Example bare_life :
  map (fun n => stage (ticks Demo.platform (fun _ => 0%nat) n Demo.bare))
    [0; 59; 60; 97; 98; 248; 249; 273; 274; 300]%nat
  = [0; 0; 1; 1; 2; 2; 3; 3; 4; 4]%nat.
Proof. vm_compute. reflexivity. Qed.

(** The show on the demo platform: the first phrase is spawned at
    once, and 70 render ticks later its rocket has exploded. *)
Example show_starts :
  let e := run Demo.platform ([Init; StartShow] ++ repeat Frame 70) in
  (map state (systems e), textLoops e, rendered <$> scene e)
  = ([EXPLODING], [AwaitDisplay 0 0], Some 71%nat).
Proof. vm_compute. reflexivity. Qed.

(** Forty sleeps of 100 ms later the text loop has spawned the second
    phrase and cached its cloud. *)
Example text_loop_advances :
  let e :=
    run Demo.platform ([Init; StartShow] ++ repeat (TextLoopWake 0) 40) in
  (map state (systems e), textLoops e, base.size (textPointsCache e))
  = ([ROCKET; ROCKET], [AwaitDisplay 1 0], 2%nat).
Proof. vm_compute. reflexivity. Qed.

(** An OK sign schedules six fireworks; two of the callbacks have run. *)
Example finale_spawns :
  let e :=
    run Demo.platform
      [Init; UpdateHand 0.5 0.5 OK_SIGN true 10000;
       FinaleTimeout 0; FinaleTimeout 0] in
  (map state (systems e), finaleTimeouts e, lastTriggerTime e)
  = ([ROCKET; ROCKET], [400; 600; 800; 1000]%Z, 10000%Z).
Proof. vm_compute. reflexivity. Qed.

(** Were [cyclePalette] ever called, the palette would change. *)
Example cyclePalette_changes :
  currentPaletteIndex <$> cyclePalette Demo.platform 10 initial = Some 3%nat.
Proof. vm_compute. reflexivity. Qed.

(** C3 on the demo platform: the first phrase of the show and the
    system it spawns, two ticks later. *)
Lemma particle_count_witness :
  systems (fst (spawnRocketFirework Demo.platform Demo.started "2026" 0.25
                  0 0 None))
  = systems Demo.started ++ [Demo.firstSystem]
  /\ ticks Demo.platform (fun i => (16 + 9 * i)%nat) 2 Demo.firstSystem
     = Some Demo.tickedSystem
  /\ hasParticles 3 Demo.firstSystem
  /\ hasParticles 3 Demo.tickedSystem.
Proof.
  assert (H1 : systems (fst (spawnRocketFirework Demo.platform Demo.started
                               "2026" 0.25 0 0 None))
               = systems Demo.started ++ [Demo.firstSystem])
    by (vm_compute; reflexivity).
  assert (H2 : ticks Demo.platform (fun i => (16 + 9 * i)%nat) 2
                 Demo.firstSystem
               = Some Demo.tickedSystem)
    by (vm_compute; reflexivity).
  split; [exact H1|]. split; [exact H2|].
  pose proof (particle_count Demo.platform Demo.started "2026" 0.25 0 0 None
                Demo.firstSystem Demo.tickedSystem
                (fun i => (16 + 9 * i)%nat) 2 H1 H2) as H.
  cbv zeta in H.
  replace (length (fst (fst (getPointsFromTextCanvas Demo.platform
                               (textPointsCache Demo.started) "2026" 0.25
                               None (randomDraws Demo.started)))))
    with 3%nat in H by (vm_compute; reflexivity).
  exact H.
Defined.

(** C4 on the demo platform: V signs at 10 s, 11 s and 11.6 s, and an
    OK sign at 14 s followed by a V sign at 15 s. *)
Lemma shared_cooldown_witness :
  let e := run Demo.platform [Init] in
  let e1 := updateHand Demo.platform e 0.5 0.5 V_SIGN true 10000 in
  let e2 := updateHand Demo.platform e1 0.5 0.5 V_SIGN true 11000 in
  let e3 := updateHand Demo.platform e2 0.5 0.5 V_SIGN true 11600 in
  let eo := updateHand Demo.platform e1 0.5 0.5 OK_SIGN true 14000 in
  let ev := updateHand Demo.platform eo 0.5 0.5 V_SIGN true 15000 in
  (is_Some (scene e)
   /\ (1500 < 10000 - lastTriggerTime e)%Z
   /\ (11000 - 10000 <= 1500)%Z
   /\ (1500 < 11600 - 10000)%Z
   /\ (3000 < 14000 - 10000)%Z
   /\ (15000 - 14000 <= 1500)%Z)
  /\ ((exists sys, systems e1 = systems e ++ [sys] /\ hasParticles 3000 sys)
      /\ lastTriggerTime e1 = 10000%Z)
  /\ (systems e2 = systems e1 /\ lastTriggerTime e2 = 10000%Z)
  /\ ((exists sys, systems e3 = systems e2 ++ [sys] /\ hasParticles 3000 sys)
      /\ lastTriggerTime e3 = 11600%Z)
  /\ (systems eo = systems e1 /\ lastTriggerTime eo = 14000%Z
      /\ finaleTimeouts eo
         = finaleTimeouts e ++ [0; 200; 400; 600; 800; 1000]%Z)
  /\ (systems ev = systems eo /\ lastTriggerTime ev = 14000%Z).
Proof.
  intros e e1 e2 e3 eo ev.
  assert (H0 : is_Some (scene e)) by (vm_compute; eauto).
  assert (H1 : (1500 < 10000 - lastTriggerTime e)%Z)
    by (vm_compute; reflexivity).
  assert (H2 : (11000 - 10000 <= 1500)%Z) by lia.
  assert (H3 : (1500 < 11600 - 10000)%Z) by lia.
  assert (H4 : (3000 < 14000 - 10000)%Z) by lia.
  assert (H5 : (15000 - 14000 <= 1500)%Z) by lia.
  split; [repeat split; assumption|].
  exact (shared_cooldown Demo.platform [Init] 0.5 0.5 10000 11000 11600
           14000 15000 H0 H1 H2 H3 H4 H5).
Defined.


(** C6 on the demo service with a pinching hand. *)
Lemma zoom_bounds_witness :
  let e := run Demo.platform Demo.pinching in
  let sc := Demo.sceneOf e in
  scene e = Some sc
  /\ (10 <= cameraZ sc /\ cameraZ sc <= 120)
  /\ exists sc',
       scene (step Demo.platform e Frame) = Some sc'
       /\ cameraZ sc'
          == if isHandDetected e then
               match handGesture e with
               | PINCH => Qmax 10 (cameraZ sc - 0.2)
               | OPEN_PALM => Qmin 120 (cameraZ sc + 0.2)
               | _ => cameraZ sc
               end
             else cameraZ sc.
Proof.
  intros e sc.
  assert (H : scene e = Some sc) by (vm_compute; reflexivity).
  split; [exact H|].
  exact (zoom_bounds Demo.platform Demo.pinching sc H).
Defined.

(** C8 on the demo platform: the empty text lights no pixel. *)
Lemma empty_shape_noop_witness :
  let e := Demo.started in
  let r := spawnRocketFirework Demo.platform e EmptyString 0.25 0 0 None in
  fst (fst (getPointsFromTextCanvas Demo.platform (textPointsCache e) EmptyString
              0.25 None (randomDraws e))) = []
  /\ snd r = Returned
  /\ systems (fst r) = systems e
  /\ randomDraws (fst r) = randomDraws e
  /\ sameControls e (fst r)
  /\ (textPointsCache (fst r) = textPointsCache e
      \/ textPointsCache (fst r)
         = <[cacheKeyOf EmptyString None := []]> (textPointsCache e)).
Proof.
  intros e r.
  assert (H : fst (fst (getPointsFromTextCanvas Demo.platform
                          (textPointsCache e) EmptyString 0.25 None (randomDraws e)))
              = []) by (vm_compute; reflexivity).
  split; [exact H|].
  exact (empty_shape_noop Demo.platform e EmptyString 0.25 0 0 None H).
Defined.


End EngineFacts.
